(** * World Bank abstract scrapers: a shallow embedding and its properties

    The development follows [src/api_scraper.py] (class
    [WorldBankAPIScraper]), [src/simple_scraper.py] (class
    [SimpleWorldBankScraper]) and [world_bank_scraper.py] (class
    [WorldBankScraper]).

    Python values of type [str] are lists of characters; a character is a
    code point below 256.  Dictionaries are finite maps. *)

From Stdlib Require Import Ascii String ZArith Lia.
From stdpp Require Import gmap strings list.

Abbreviation str := (list ascii).

(** A literal of the source, as a character list. *)
Definition py (s : string) : str := String.list_ascii_of_string s.

(** * Python text primitives *)

Module Text.

(** Characters removed by [str.split()] and [str.strip()] without
    arguments: the code points below 256 for which [str.isspace] holds
    (tab, line feed, vertical tab, form feed, carriage return, the four
    separators 28 to 31, space, NEL and the no-break space). *)
Definition is_space (c : ascii) : bool :=
  match nat_of_ascii c with
  | 9 | 10 | 11 | 12 | 13 | 28 | 29 | 30 | 31 | 32 | 133 | 160 => true
  | _ => false
  end.

(** Characters matched by [\d] in a [str] pattern, below 256. *)
Definition is_digit (c : ascii) : bool :=
  let n := nat_of_ascii c in (48 <=? n) && (n <=? 57).

(** [push w ws]: close the word [w] in front of [ws]; an empty run of
    characters is no word. *)
Definition push (w : str) (ws : list str) : list str :=
  match w with [] => ws | _ => w :: ws end.

(** One right-to-left pass: the word the text starts in, and the words
    after it. *)
Fixpoint split_go (s : str) : str * list str :=
  match s with
  | [] => ([], [])
  | c :: s' =>
      let '(w, ws) := split_go s' in
      if is_space c then ([], push w ws) else (c :: w, ws)
  end.

(** [text.split()]: the maximal runs of non-whitespace characters. *)
Definition split (s : str) : list str :=
  let '(w, ws) := split_go s in push w ws.

(** [sep.join(words)]. *)
Definition join (sep : str) (ws : list str) : str :=
  match ws with
  | [] => []
  | w :: ws' => w ++ flat_map (fun x => sep ++ x) ws'
  end.

(** [text.lstrip()], [text.rstrip()] and [text.strip()]. *)
Fixpoint lstrip (s : str) : str :=
  match s with
  | [] => []
  | c :: s' => if is_space c then lstrip s' else s
  end.

Fixpoint rstrip (s : str) : str :=
  match s with
  | [] => []
  | c :: s' =>
      match rstrip s' with
      | [] => if is_space c then [] else [c]
      | r => c :: r
      end
  end.

Definition strip (s : str) : str := rstrip (lstrip s).

(** [text.startswith(prefix)]. *)
Fixpoint startswith (text prefix : str) : bool :=
  match prefix, text with
  | [], _ => true
  | p :: prefix', c :: text' =>
      if decide (p = c) then startswith text' prefix' else false
  | _ :: _, [] => false
  end.

(** The truth value of a string: [bool(s)]. *)
Definition truthy (s : str) : bool :=
  match s with [] => false | _ => true end.

End Text.

Import Text.

(** * The text normalizer *)

(** [_clean_text] of [WorldBankAPIScraper]; its list of prefixes. *)
Definition prefixes_to_remove : list str :=
  [ py "Abstract*"; py "Abstract:"; py "Abstract";
    py "Project Abstract:"; py "Project Abstract";
    py "Project Development Objective:"; py "Project Development Objective";
    py "Description:"; py "Description" ].

(** The list of [SimpleWorldBankScraper._clean_text]. *)
Definition simple_prefixes_to_remove : list str :=
  [ py "Abstract*"; py "Abstract:"; py "Abstract"; py "Project Abstract:";
    py "Project Abstract"; py "Project Development Objective:";
    py "Project Development Objective"; py "Description:"; py "Description" ].

(** [' '.join(text.split())]. *)
Definition collapse (text : str) : str := join (py " ") (split text).

(** One turn of the loop [for prefix in prefixes_to_remove]. *)
Definition remove_prefix (text prefix : str) : str :=
  if startswith text prefix then strip (drop (length prefix) text) else text.

(** The loop over a list of prefixes, from the text it starts with. *)
Definition remove_prefixes (prefixes : list str) (text : str) : str :=
  foldl remove_prefix text prefixes.

Definition _clean_text (text : str) : str :=
  remove_prefixes prefixes_to_remove (collapse text).

Definition simple_clean_text (text : str) : str :=
  remove_prefixes simple_prefixes_to_remove (collapse text).


(** * The API scraper ([WorldBankAPIScraper]) *)

Inductive exn :=
| ValueError (msg : str)
| KeyError (key : str)
| TypeError
| AttributeError.

Inductive outcome (A : Type) :=
| Returned (a : A)
| Raised (e : exn).
Arguments Returned {A} a.
Arguments Raised {A} e.

Module Api.

(** The regular expression [/project-detail/(P\d+)] at one position of the
    text: the literal part, then the longest run of digits, which must
    not be empty.  The group is the [P] with its digits. *)
Definition literal : str := py "/project-detail/P".

Fixpoint digits (s : str) : str :=
  match s with
  | c :: s' => if is_digit c then c :: digits s' else []
  | [] => []
  end.

Definition match_at (s : str) : option str :=
  if startswith s literal then
    match digits (drop (length literal) s) with
    | [] => None
    | ds => Some ("P"%char :: ds)
    end
  else None.

(** [re.search]: the match at the leftmost position that has one. *)
Fixpoint search (s : str) : option str :=
  match match_at s with
  | Some group => Some group
  | None =>
      match s with
      | [] => None
      | _ :: s' => search s'
      end
  end.

(** [extract_project_id]: group 1 of the match, or [None]. *)
Definition extract_project_id (url : str) : option str := search url.

(** A value of the decoded JSON document, as far as the scraper looks at
    it: its truth value and its [str()].  Numbers, lists and dictionaries
    carry their [str()] with them. *)
Inductive pyval :=
| PNone
| PBool (b : bool)
| PNum (nonzero : bool) (repr : str)
| PStr (s : str)
| PContainer (nonempty : bool) (repr : str).

Definition py_bool (v : pyval) : bool :=
  match v with
  | PNone => false
  | PBool b => b
  | PNum nonzero _ => nonzero
  | PStr s => truthy s
  | PContainer nonempty _ => nonempty
  end.

Definition py_str (v : pyval) : str :=
  match v with
  | PNone => py "None"
  | PBool true => py "True"
  | PBool false => py "False"
  | PNum _ repr => repr
  | PStr s => s
  | PContainer _ repr => repr
  end.

(** The entry of one project in the envelope: a dictionary of fields, or
    a JSON value of another shape, with its truth value and whether
    looking the field names up in it raises ([field in project_data] on
    a number, [project_data[field]] on a list or a string that holds a
    field name). *)
Inductive project :=
| ProjectDict (fields : gmap str pyval)
| ProjectOther (nonempty raises : bool).

(** What one GET of the search endpoint gives: an exception (transport,
    status or JSON decoding), or the decoded envelope, of which the
    scraper reads [data['projects']] when [data] has that key. *)
Inductive response :=
| Failed
| Json (projects : option (gmap str project)).

(** The remote source: the response to the request made for the row at a
    position of the table, for a project id. *)
Definition world : Type := nat -> str -> response.

(** What [process_csv] does to the outside. *)
Inductive event :=
| Get (index : nat) (project_id : str)
| Sleep (delay : Z)
| SetAt (index : nat) (value : str)
| ToCsv.

(** [get_project_data]; every exception is caught and gives [None]. *)
Definition get_project_data (w : world) (index : nat) (project_id : str)
  : option project :=
  match w index project_id with
  | Failed => None
  | Json None => None
  | Json (Some projects) => projects !! project_id
  end.

Definition abstract_fields : list str :=
  [ py "project_abstract"; py "abstract"; py "description"; py "summary";
    py "project_description"; py "project_summary" ].

(** The loop [for field in abstract_fields] with its [break]; [abstract]
    is the variable of that name. *)
Fixpoint scan_fields (fields : list str) (project_data : gmap str pyval)
    (abstract : str) : str :=
  match fields with
  | [] => abstract
  | field :: fields' =>
      match project_data !! field with
      | Some v =>
          if py_bool v then
            let abstract := strip (py_str v) in
            if 50 <? length abstract then abstract
            else scan_fields fields' project_data abstract
          else scan_fields fields' project_data abstract
      | None => scan_fields fields' project_data abstract
      end
  end.

(** The body of the [try] of [extract_abstract]: the requests made, and
    the value returned or the exception raised. *)
Definition extract_abstract_body (w : world) (index : nat) (url : str)
  : list event * outcome str :=
  match extract_project_id url with
  | None => ([], Returned [])
  | Some project_id =>
      ([Get index project_id],
       match get_project_data w index project_id with
       | None => Returned []
       | Some (ProjectOther nonempty raises) =>
           if nonempty && raises then Raised TypeError else Returned []
       | Some (ProjectDict project_data) =>
           if decide (project_data = ∅) then Returned []
           else
             let abstract := scan_fields abstract_fields project_data [] in
             if truthy abstract then Returned (_clean_text abstract)
             else Returned []
       end)
  end.

(** [extract_abstract]: [except Exception] returns the empty string; the
    [finally] clause sleeps on every path, and [time.sleep] raises
    [ValueError] on a negative delay. *)
Definition extract_abstract (w : world) (delay : Z) (index : nat) (url : str)
  : list event * outcome str :=
  let '(tr, body) := extract_abstract_body w index url in
  let abstract := match body with Returned abstract => abstract | Raised _ => [] end in
  (tr ++ [Sleep delay],
   if (delay <? 0)%Z
   then Raised (ValueError (py "sleep length must be non-negative"))
   else Returned abstract).

(** ** The table *)

(** A cell of the frame read by [pd.read_csv]: a missing value, a text,
    or a value of another type (a column read as numbers or booleans). *)
Inductive cell :=
| NaN
| Str (s : str)
| NonText.

Record DataFrame := {
  columns : list str;
  rows : list (gmap str cell)
}.

(** Every row has a cell in every column of the frame. *)
Definition frame_ok (df : DataFrame) : Prop :=
  Forall (fun r : gmap str cell =>
            Forall (fun c => is_Some (r !! c)) (columns df))
         (rows df).

(** No cell of a column holds a value that is neither text nor missing:
    the column was read as text. *)
Definition text_column (url_column : str) (df : DataFrame) : Prop :=
  Forall (fun r : gmap str cell => r !! url_column <> Some NonText) (rows df).

(** [df[output_column] = ""]. *)
Definition set_column (output_column : str) (df : DataFrame) : DataFrame :=
  {| columns := if decide (output_column ∈ columns df) then columns df
                else columns df ++ [output_column];
     rows := (fun r : gmap str cell => <[output_column := Str []]> r) <$> rows df |}.

(** [df.at[index, output_column] = value]. *)
Definition set_at (index : nat) (output_column : str) (value : str)
    (rs : list (gmap str cell)) : list (gmap str cell) :=
  alter (fun r : gmap str cell => <[output_column := Str value]> r) index rs.

(** [(df[output_column] != "").sum()]. *)
Definition not_empty (output_column : str) (r : gmap str cell) : bool :=
  match r !! output_column with
  | Some (Str []) => false
  | _ => true
  end.

Definition count_not_empty (output_column : str) (rs : list (gmap str cell))
  : nat :=
  length (filter (fun r => not_empty output_column r = true) rs).

Record report := {
  saved : DataFrame;
  successful_extractions : nat;
  total_urls : nat
}.

(** The loop [for index, row in df.iterrows()]: [pending] are the rows
    still to come, as they were when the loop started; [rs] is the
    frame being written to. *)
Fixpoint for_rows (w : world) (delay : Z) (url_column output_column : str)
    (index : nat) (pending : list (gmap str cell))
    (rs : list (gmap str cell)) (tr : list event)
  : list event * outcome (list (gmap str cell)) :=
  match pending with
  | [] => (tr, Returned rs)
  | row :: pending' =>
      let continue := for_rows w delay url_column output_column (S index) pending' in
      match row !! url_column with
      | None => (tr, Raised (KeyError url_column))
      | Some NaN => continue rs tr
      | Some NonText => (tr, Raised AttributeError)
      | Some (Str url) =>
          if truthy (strip url) then
            match extract_abstract w delay index url with
            | (tr', Returned abstract) =>
                continue (set_at index output_column abstract rs)
                         (tr ++ tr' ++ [SetAt index abstract])
            | (tr', Raised _) =>
                continue (set_at index output_column [] rs)
                         (tr ++ tr' ++ [SetAt index []])
            end
          else continue rs tr
      end
  end.

Definition column_not_found (url_column : str) (df : DataFrame) : str :=
  py "Column '" ++ url_column ++ py "' not found in CSV. Available columns: "
    ++ join (py ", ") (columns df).

(** [process_csv] on the frame that [pd.read_csv] returned; reading the
    file, the name of the output file and the log are left out. *)
Definition process_csv (w : world) (delay : Z) (df : DataFrame)
    (url_column output_column : str) : list event * outcome report :=
  if decide (url_column ∈ columns df) then
    let df := set_column output_column df in
    let total_urls := length (rows df) in
    match for_rows w delay url_column output_column 0 (rows df) (rows df) [] with
    | (tr, Raised e) => (tr, Raised e)
    | (tr, Returned rs) =>
        (tr ++ [ToCsv],
         Returned {| saved := {| columns := columns df; rows := rs |};
                     successful_extractions := count_not_empty output_column rs;
                     total_urls := total_urls |})
    end
  else ([], Raised (ValueError (column_not_found url_column df))).

(** What the loop writes for a row whose locator cell is [c], when it
    writes: the abstract, or the empty string when [extract_abstract]
    raised.  [None] when the row is skipped. *)
Definition row_abstract (w : world) (delay : Z) (index : nat) (c : cell)
  : option str :=
  match c with
  | Str url =>
      if truthy (strip url) then
        Some match (extract_abstract w delay index url).2 with
             | Returned abstract => abstract
             | Raised _ => []
             end
      else None
  | _ => None
  end.

(** The row at [index] once the loop has passed it. *)
Definition processed_row (w : world) (delay : Z) (url_column output_column : str)
    (index : nat) (row : gmap str cell) : gmap str cell :=
  match row !! url_column ≫= row_abstract w delay index with
  | Some abstract => <[output_column := Str abstract]> row
  | None => row
  end.


(** A locator cell on which the loop skips the row. *)
Definition blank_locator (c : cell) : bool :=
  match c with
  | NaN => true
  | Str url => negb (truthy (strip url))
  | NonText => false
  end.

(** The result field of the row at a position of a frame. *)
Definition result_at (output_column : str) (df : DataFrame) (index : nat)
  : option cell :=
  rows df !! index ≫= fun r => r !! output_column.

End Api.

(** * The static HTML scraper ([SimpleWorldBankScraper]) *)

Module Simple.

(** What calling one strategy on the parsed page gives. *)
Inductive strategy_result :=
| Raises
| Gives (result : str).

(** The parsed page, seen through the two finders the strategies call:
    [_find_by_text_content(soup, search_text)] and
    [_find_by_classes(soup)]. *)
Record soup := {
  _find_by_text_content : str -> strategy_result;
  _find_by_classes : strategy_result
}.

(** The list [strategies], each entry applied when the loop reaches it. *)
Definition strategies (page : soup) : list strategy_result :=
  [ _find_by_text_content page (py "Abstract");
    _find_by_text_content page (py "Project Development Objective");
    _find_by_text_content page (py "Description");
    _find_by_classes page;
    _find_by_text_content page (py "Summary") ].

(** The loop [for i, strategy in enumerate(strategies, 1)]; the value
    is [abstract_text] when the loop is left. *)
Fixpoint run_strategies (results : list strategy_result) : str :=
  match results with
  | [] => []
  | Raises :: results' => run_strategies results'
  | Gives result :: results' =>
      if truthy result && (50 <? length (strip result)) then result
      else run_strategies results'
  end.

(** The GET of the page: an exception, or the parsed document. *)
Inductive fetched :=
| RequestFailed
| Parsed (page : soup).

Definition extract_abstract (delay : Z) (page : fetched) : outcome str :=
  let abstract :=
    match page with
    | RequestFailed => []
    | Parsed page =>
        let abstract_text := run_strategies (strategies page) in
        if truthy abstract_text then simple_clean_text abstract_text else []
    end in
  if (delay <? 0)%Z
  then Raised (ValueError (py "sleep length must be non-negative"))
  else Returned abstract.

End Simple.

(** * The browser scraper ([WorldBankScraper]) *)

Module Browser.

(** [driver.find_elements(By.XPATH, selector)]: an exception, or the
    elements found, each with its [textContent] attribute ([None] when
    the element has none). *)
Inductive found :=
| DriverError
| Elements (texts : list (option str)).

(** The look for a [Show More] control. *)
Inductive show_more :=
| NoSuchElement
| Button (displayed : bool)
| ButtonError.

Record page := {
  find_elements : str -> found;
  show_more_button : show_more;
  (** [get_text()] of what each [soup.find] of the list [patterns] found *)
  patterns : list (option str)
}.

Definition abstract_selectors : list str :=
  [ py "//h2[contains(text(), 'Abstract')]/following-sibling::*";
    py "//h3[contains(text(), 'Abstract')]/following-sibling::*";
    py "//div[contains(@class, 'abstract')]";
    py "//section[contains(@class, 'abstract')]";
    py "//h2[contains(text(), 'Project Development Objective')]/following-sibling::*";
    py "//h3[contains(text(), 'Project Development Objective')]/following-sibling::*";
    py "//div[contains(text(), 'Project Development Objective')]/../following-sibling::*";
    py "//h2[contains(text(), 'Description')]/following-sibling::*";
    py "//h3[contains(text(), 'Description')]/following-sibling::*";
    py "//div[contains(@class, 'project-details')]//div[contains(text(), 'Abstract')]/../following-sibling::div";
    py "//div[contains(@class, 'project-summary')]";
    py "//div[contains(@class, 'project-description')]";
    py "//*[contains(text(), 'Abstract')]/following-sibling::*";
    py "//*[contains(text(), 'Abstract')]/../following-sibling::*";
    py "//div[contains(@class, 'summary')]";
    py "//div[contains(@class, 'overview')]";
    py "//div[@class='summary-section']";
    py "//div[@class='project-abstract']";
    py "//div[@id='abstract']";
    py "//div[@id='summary']" ].

(** The loop [for element in elements]: the text gathered, and whether
    the loop ran to its end ([.strip()] on a missing [textContent]
    raises). *)
Fixpoint read_elements (elements : list (option str)) (abstract_text : str)
  : str * bool :=
  match elements with
  | [] => (abstract_text, true)
  | None :: _ => (abstract_text, false)
  | Some content :: elements' =>
      let text := strip content in
      if truthy text && (50 <? length text)
      then read_elements elements' (abstract_text ++ text ++ py " ")
      else read_elements elements' abstract_text
  end.

(** The loop [for selector in abstract_selectors]. *)
Fixpoint scan_selectors (p : page) (selectors : list str) (abstract_text : str)
  : str :=
  match selectors with
  | [] => abstract_text
  | selector :: selectors' =>
      match find_elements p selector with
      | DriverError => scan_selectors p selectors' abstract_text
      | Elements [] => scan_selectors p selectors' abstract_text
      | Elements elements =>
          match show_more_button p with
          | ButtonError => scan_selectors p selectors' abstract_text
          | _ =>
              match read_elements elements abstract_text with
              | (abstract_text, false) => scan_selectors p selectors' abstract_text
              | (abstract_text, true) =>
                  if truthy (strip abstract_text) then abstract_text
                  else scan_selectors p selectors' abstract_text
              end
          end
      end
  end.

(** The loop [for pattern in patterns] of the fallback. *)
Fixpoint first_pattern (found : list (option str)) (abstract_text : str) : str :=
  match found with
  | [] => abstract_text
  | None :: found' => first_pattern found' abstract_text
  | Some text :: found' =>
      let abstract_text := strip text in
      if truthy abstract_text then abstract_text
      else first_pattern found' abstract_text
  end.

Definition prefixes_to_remove : list str :=
  [ py "Abstract*"; py "Abstract:"; py "Abstract";
    py "Project Abstract:"; py "Project Abstract" ].

(** [driver.get(url)] and the wait for the body: an exception (a timeout
    among them), or the page. *)
Inductive loaded :=
| LoadFailed
| Loaded (p : page).

Definition extract_abstract (delay : Z) (l : loaded) : outcome str :=
  let abstract :=
    match l with
    | LoadFailed => []
    | Loaded p =>
        let abstract_text := scan_selectors p abstract_selectors [] in
        let abstract_text :=
          if truthy (strip abstract_text) then abstract_text
          else first_pattern (patterns p) abstract_text in
        if truthy abstract_text
        then remove_prefixes prefixes_to_remove (collapse abstract_text)
        else []
    end in
  if (delay <? 0)%Z
  then Raised (ValueError (py "sleep length must be non-negative"))
  else Returned abstract.

End Browser.

(** * Concrete tables, documents and pages *)

Module Examples.

Import Api.

Definition url_P123456 : str :=
  py "https://projects.worldbank.org/en/projects-operations/project-detail/P123456".

Definition url_P100001 : str :=
  py "https://projects.worldbank.org/en/projects-operations/project-detail/P100001".

(** A project whose only text is ten characters long. *)
Definition short_project : gmap str pyval :=
  {[ py "abstract" := PStr (py "Short text") ]}.

Definition short_world : world :=
  fun _ _ => Json (Some {[ py "P123456" := ProjectDict short_project ]}).

(** A project whose primary text is two letters with sixty blanks
    between them. *)
Definition spaced_world : world :=
  fun _ _ =>
    Json (Some {[ py "P123456" :=
      ProjectDict {[ py "project_abstract" :=
        PStr (py "a" ++ replicate 60 " "%char ++ py "b") ]} ]}).

(** A project with a primary text of 60 characters and a fallback of
    200. *)
Definition primary_text : str :=
  py "The project will rehabilitate rural roads in three province.".

Definition fallback_text : str :=
  py "The development objective is to improve access to markets and basic services for rural households by rehabilitating roads, small bridges and drainage works, and by setting up a maintenance fund run by".

Definition two_field_project : gmap str pyval :=
  {[ py "project_abstract" := PStr primary_text;
     py "description" := PStr fallback_text ]}.

Definition two_field_world : world :=
  fun _ _ => Json (Some {[ py "P123456" := ProjectDict two_field_project ]}).

(** A text of 65 characters. *)
Definition health_text : str :=
  py "Supports the national health programme with new clinics and staff".

(** The source fails for the row at position 0 and answers for the
    others; [all_answered] answers for all. *)
Definition all_answered : world :=
  fun _ project_id =>
    Json (Some {[ project_id :=
                    ProjectDict {[ py "project_abstract" := PStr health_text ]} ]}).


Definition first_row : gmap str cell :=
  {[ py "Project URL" := Str url_P100001; py "Name" := Str (py "Health") ]}.

Definition second_row : gmap str cell :=
  {[ py "Project URL" := Str url_P123456; py "Name" := Str (py "Roads") ]}.

Definition two_rows : DataFrame :=
  {| columns := [py "Project URL"; py "Name"];
     rows := [first_row; second_row] |}.

(** The same table with a filled result column and a row without a
    locator. *)
Definition with_old_results : DataFrame :=
  {| columns := [py "Project URL"; py "Abstract"];
     rows := [ {[ py "Project URL" := NaN; py "Abstract" := Str (py "old") ]};
               {[ py "Project URL" := Str url_P123456;
                  py "Abstract" := Str (py "older") ]} ] |}.

Definition with_other_results : DataFrame :=
  {| columns := [py "Project URL"; py "Abstract"];
     rows := [ {[ py "Project URL" := NaN; py "Abstract" := NaN ]};
               {[ py "Project URL" := Str url_P123456;
                  py "Abstract" := Str (py "x") ]} ] |}.

(** A table without the locator column. *)
Definition no_locator : DataFrame :=
  {| columns := [py "Name"; py "Link"];
     rows := [ {[ py "Name" := Str (py "Health"); py "Link" := Str url_P100001 ]} ] |}.

(** A page on which the first selector finds two paragraphs. *)
Definition first_paragraph : str :=
  py "The project improves rural roads in the northern region of the country.".

Definition second_paragraph : str :=
  py "It also finances the maintenance of bridges and the training of engineers.".

Definition other_paragraph : str :=
  py "A second component pays for school meals in the same region of the country.".

Definition page_with (second : str) : Browser.page :=
  {| Browser.find_elements := fun selector =>
       if decide (selector
                  = py "//h2[contains(text(), 'Abstract')]/following-sibling::*")
       then Browser.Elements [Some first_paragraph; Some second]
       else Browser.Elements [];
     Browser.show_more_button := Browser.NoSuchElement;
     Browser.patterns := [] |}.

(** A parsed page on which the first two strategies find nothing of
    substance and the third finds a paragraph. *)
Definition third_strategy_page : Simple.soup :=
  {| Simple._find_by_text_content := fun search_text =>
       if decide (search_text = py "Abstract") then Simple.Gives (py "Abstract")
       else if decide (search_text = py "Project Development Objective")
            then Simple.Raises
       else if decide (search_text = py "Description")
            then Simple.Gives first_paragraph
       else Simple.Gives second_paragraph;
     Simple._find_by_classes := Simple.Gives other_paragraph |}.

End Examples.

(** * The claims, in the words of the specification *)

(** C10: what the normalizer's output looks like. *)
Definition no_leading_space (t : str) : Prop :=
  forall c t', t = c :: t' -> is_space c = false.

Definition no_trailing_space (t : str) : Prop :=
  forall c t', t = t' ++ [c] -> is_space c = false.

Definition no_space_run (t : str) : Prop :=
  forall x a b y, t = x ++ a :: b :: y ->
    is_space a = true -> is_space b = true -> False.

Definition only_blanks (t : str) : Prop :=
  forall c, c ∈ t -> is_space c = true -> c = " "%char.

Definition well_spaced (t : str) : Prop :=
  no_leading_space t /\ no_trailing_space t /\ no_space_run t /\ only_blanks t.

(** The same, as a check that runs: every whitespace character is a
    blank followed by a character that is none; [tidy] texts also do not
    start with one. *)
Fixpoint tidy_tail (t : str) : bool :=
  match t with
  | [] => true
  | c :: t' =>
      if is_space c then
        bool_decide (c = " "%char)
        && match t' with [] => false | d :: _ => negb (is_space d) end
        && tidy_tail t'
      else tidy_tail t'
  end.

Definition tidy (t : str) : bool :=
  match t with
  | [] => true
  | c :: _ => negb (is_space c) && tidy_tail t
  end.

(** C3, in the words of the specification: after the whitespace
    collapse, the longest listed prefix that matches is removed, and no
    other. *)
Definition longest_match (t : str) (prefixes : list str) : option str :=
  foldl (fun best p =>
           if startswith t p then
             match best with
             | Some b => if length b <? length p then Some p else best
             | None => Some p
             end
           else best) None prefixes.

Definition normalize_at_most_one (raw : str) : str :=
  let t := collapse raw in
  match longest_match t prefixes_to_remove with
  | Some p => strip (drop (length p) t)
  | None => t
  end.

(** No entry of a list of prefixes is extended by a later entry: the
    first entry that matches a text is then the longest that does. *)
Fixpoint longest_first (prefixes : list str) : bool :=
  match prefixes with
  | [] => true
  | p :: prefixes' =>
      forallb (fun q => negb (startswith q p)) prefixes'
      && longest_first prefixes'
  end.

(** C6, in the words of the specification: a key is a letter followed by
    digits; it is embedded in a path segment of a locator when it lies
    between two slashes, or between a slash and the end. *)
Definition is_letter (c : ascii) : bool :=
  let n := nat_of_ascii c in
  ((65 <=? n) && (n <=? 90)) || ((97 <=? n) && (n <=? 122)).

Definition is_key (k : str) : Prop :=
  exists c ds, k = c :: ds /\ is_letter c = true /\ ds <> []
               /\ Forall (fun d => is_digit d = true) ds.

Definition path_segment (seg url : str) : Prop :=
  exists pre post, url = pre ++ "/"%char :: seg ++ post
    /\ ~ In "/"%char seg
    /\ (post = [] \/ exists post', post = "/"%char :: post').

Definition embedded_key (k url : str) : Prop :=
  is_key k /\ exists seg l r, path_segment seg url /\ seg = l ++ k ++ r.

(** C8: a strategy of the static scraper that the loop passes over, and
    the texts of a selector's elements that the browser scraper keeps. *)
Definition strategy_misses (r : Simple.strategy_result) : Prop :=
  match r with
  | Simple.Raises => True
  | Simple.Gives result =>
      truthy result && (50 <? length (strip result)) = false
  end.

Definition accepted (contents : list str) : list str :=
  filter (fun text => truthy text && (50 <? length text) = true)
         (strip <$> contents).

(** A word: a run of characters, not empty, none of them whitespace. *)
Definition word (w : str) : Prop :=
  w <> [] /\ Forall (fun c => is_space c = false) w.

(** * Further notions, for the properties beyond the claims *)

(** A listed field that the loop of [extract_abstract] accepts: it is in
    the document with a truthy value whose text, stripped, is over 50
    characters long; and a field that holds a truthy value at all. *)
Definition accepts (project_data : gmap str Api.pyval) (field : str) : bool :=
  match project_data !! field with
  | Some v => Api.py_bool v && (50 <? length (strip (Api.py_str v)))
  | None => false
  end.

Definition has_value (project_data : gmap str Api.pyval) (field : str) : bool :=
  match project_data !! field with
  | Some v => Api.py_bool v
  | None => false
  end.

(** What [process_csv] does to the outside for one row of the table as
    the loop finds it: nothing when the row is skipped; else at most one
    request, one sleep and one write of the result cell. *)
Definition row_events (w : Api.world) (delay : Z) (url_column : str)
    (index : nat) (row : gmap str Api.cell) : list Api.event :=
  match row !! url_column with
  | Some (Api.Str url) =>
      if truthy (strip url) then
        match Api.extract_project_id url with
        | Some project_id => [Api.Get index project_id]
        | None => []
        end
        ++ [Api.Sleep delay;
            Api.SetAt index
              match (Api.extract_abstract w delay index url).2 with
              | Returned abstract => abstract
              | Raised _ => []
              end]
      else []
  | _ => []
  end.

(** A locator cell that the loop can read. *)
Definition readable (url_column : str) (row : gmap str Api.cell) : Prop :=
  exists c, row !! url_column = Some c /\ c <> Api.NonText.

Definition is_get (e : Api.event) : bool :=
  match e with Api.Get _ _ => true | _ => false end.

Definition is_sleep (e : Api.event) : bool :=
  match e with Api.Sleep _ => true | _ => false end.

Definition is_set_at (e : Api.event) : bool :=
  match e with Api.SetAt _ _ => true | _ => false end.

(** * The loop of [process_csv], for any scraper

    The three classes have the same [process_csv]; they differ in the
    [extract_abstract] that the loop calls. *)

Module Batch.

Import Api.

(** What [self.extract_abstract(url)] gives for the row at a position. *)
Definition extractor : Type := nat -> str -> outcome str.

Fixpoint for_rows (extract : extractor) (url_column output_column : str)
    (index : nat) (pending : list (gmap str cell))
    (rs : list (gmap str cell)) : outcome (list (gmap str cell)) :=
  match pending with
  | [] => Returned rs
  | row :: pending' =>
      let continue := for_rows extract url_column output_column (S index) pending' in
      match row !! url_column with
      | None => Raised (KeyError url_column)
      | Some NaN => continue rs
      | Some NonText => Raised AttributeError
      | Some (Str url) =>
          if truthy (strip url) then
            match extract index url with
            | Returned abstract =>
                continue (set_at index output_column abstract rs)
            | Raised _ => continue (set_at index output_column [] rs)
            end
          else continue rs
      end
  end.

Definition process_csv (extract : extractor) (df : DataFrame)
    (url_column output_column : str) : outcome report :=
  if decide (url_column ∈ columns df) then
    let df := set_column output_column df in
    let total_urls := length (rows df) in
    match for_rows extract url_column output_column 0 (rows df) (rows df) with
    | Raised e => Raised e
    | Returned rs =>
        Returned {| saved := {| columns := columns df; rows := rs |};
                    successful_extractions := count_not_empty output_column rs;
                    total_urls := total_urls |}
    end
  else Raised (ValueError (column_not_found url_column df)).

(** The result written for a row whose locator cell is [c]; [None] when
    the row is skipped. *)
Definition row_abstract (extract : extractor) (index : nat) (c : cell)
  : option str :=
  match c with
  | Str url =>
      if truthy (strip url) then
        Some match extract index url with
             | Returned abstract => abstract
             | Raised _ => []
             end
      else None
  | _ => None
  end.

Definition processed_row (extract : extractor) (url_column output_column : str)
    (index : nat) (row : gmap str cell) : gmap str cell :=
  match row !! url_column ≫= row_abstract extract index with
  | Some abstract => <[output_column := Str abstract]> row
  | None => row
  end.

End Batch.

(** [SimpleWorldBankScraper.process_csv]: the pages are what the GET of
    a locator gives while the row at a position is processed. *)
Module SimpleRun.

Definition pages : Type := nat -> str -> Simple.fetched.

Definition process_csv (w : pages) (delay : Z) (df : Api.DataFrame)
    (url_column output_column : str) : outcome Api.report :=
  Batch.process_csv (fun index url => Simple.extract_abstract delay (w index url))
                    df url_column output_column.

End SimpleRun.

(** [WorldBankScraper.process_csv]. *)
Module BrowserRun.

Definition pages : Type := nat -> str -> Browser.loaded.

Definition process_csv (w : pages) (delay : Z) (df : Api.DataFrame)
    (url_column output_column : str) : outcome Api.report :=
  Batch.process_csv (fun index url => Browser.extract_abstract delay (w index url))
                    df url_column output_column.

End BrowserRun.

(** * The finders of the static scraper

    [_find_by_text_content] and [_find_by_classes], on what the calls of
    [find_all] and [find_next_sibling] give on the parsed page. *)

Module SimplePage.

(** An element, as the finders look at it: its tag name and its
    [get_text()]. *)
Record element := {
  name : str;
  get_text : str
}.

Definition heading_names : list str := [py "h1"; py "h2"; py "h3"; py "h4"].

Definition text_names : list str := [py "p"; py "div"; py "span"].

(** The loop [while current and current.name not in [...]] over the
    siblings that follow a heading, from the first on; [next_elements]
    is the list of that name. *)
Fixpoint collect (siblings : list element) (next_elements : list str)
  : list str :=
  match siblings with
  | [] => next_elements
  | current :: siblings' =>
      if decide (name current ∈ heading_names) then next_elements
      else
        let next_elements :=
          if bool_decide (name current ∈ text_names)
             && truthy (strip (get_text current))
          then next_elements ++ [strip (get_text current)]
          else next_elements in
        if 5 <? length next_elements then next_elements
        else collect siblings' next_elements
  end.

(** What the two calls of [find_all] find for one search text: the
    headings that hold the text, each given by the elements that follow
    it among its siblings, and the [get_text()] of the containers. *)
Record matches := {
  headings : list (list element);
  containers : list str
}.

(** The loop [for heading in headings]. *)
Fixpoint first_heading (headings : list (list element)) : option str :=
  match headings with
  | [] => None
  | siblings :: headings' =>
      match collect siblings [] with
      | [] => first_heading headings'
      | next_elements => Some (join (py " ") next_elements)
      end
  end.

(** A loop [for element in ...: text = element.get_text().strip();
    if len(text) > 50: return text]. *)
Fixpoint first_long (texts : list str) : option str :=
  match texts with
  | [] => None
  | content :: texts' =>
      let text := strip content in
      if 50 <? length text then Some text else first_long texts'
  end.

Definition _find_by_text_content (m : matches) : str :=
  match first_heading (headings m) with
  | Some text => text
  | None => default [] (first_long (containers m))
  end.

Definition class_patterns : list str :=
  [ py "abstract"; py "project-abstract"; py "summary"; py "description";
    py "project-description"; py "project-summary"; py "overview";
    py "project-details"; py "content"; py "main-content" ].

(** What the two calls of [find_all] in [_find_by_classes] find for a
    pattern: the [get_text()] of the elements, in document order. *)
Record class_matches := {
  with_class : str -> list str;
  with_class_lower : str -> list str
}.

(** The loop [for pattern in class_patterns]. *)
Fixpoint find_in_classes (patterns : list str) (c : class_matches) : str :=
  match patterns with
  | [] => []
  | pattern :: patterns' =>
      match first_long (with_class c pattern) with
      | Some text => text
      | None =>
          match first_long (with_class_lower c pattern) with
          | Some text => text
          | None => find_in_classes patterns' c
          end
      end
  end.

Definition _find_by_classes (c : class_matches) : str :=
  find_in_classes class_patterns c.

(** A parsed page, and the page as the strategies of [extract_abstract]
    see it. *)
Record page := {
  by_text : str -> matches;
  by_class : class_matches
}.

Definition soup_of (p : page) : Simple.soup :=
  {| Simple._find_by_text_content := fun search_text =>
       Simple.Gives (_find_by_text_content (by_text p search_text));
     Simple._find_by_classes := Simple.Gives (_find_by_classes (by_class p)) |}.

(** The texts that [collect] can take from the siblings of a heading:
    those of the [p], [div] and [span] elements with a text, up to the
    next heading. *)
Definition text_of (e : element) : option str :=
  if bool_decide (name e ∈ text_names) && truthy (strip (get_text e))
  then Some (strip (get_text e)) else None.

Fixpoint until_heading (siblings : list element) : list element :=
  match siblings with
  | [] => []
  | e :: siblings' =>
      if decide (name e ∈ heading_names) then [] else e :: until_heading siblings'
  end.

End SimplePage.

(** * The helper scripts *)

(** [identify_remaining_projects], on the two tables it reads, up to the
    table it saves; a table is the list of its rows, and the tables are
    taken to have the column [Project Id] with an id in every row. *)
Module Remaining.

Section WithIds.

Context {Row Id : Type} `{Countable Id}.

(** [row['Project Id']] *)
Variable project_id : Row -> Id.

(** [set(df['Project Id'].tolist())] *)
Definition project_ids (df : list Row) : gset Id :=
  list_to_set (project_id <$> df).

Definition remaining_project_ids (main_df processed_df : list Row) : gset Id :=
  project_ids main_df ∖ project_ids processed_df.

(** [main_df[main_df['Project Id'].isin(remaining_project_ids)]] *)
Definition remaining_df (main_df processed_df : list Row) : list Row :=
  filter (fun r => project_id r ∈ remaining_project_ids main_df processed_df)
         main_df.

End WithIds.

End Remaining.

(** The combined priority table of [filter_projects], on a table that
    has the columns the script reads.  A row is the map of its cells;
    the tests that pandas makes on dates, stages and amounts are taken
    as they come. *)
Module Priority.

Section WithValues.

Context {V : Type} `{EqDecision V}.

(** The missing value [NaN]. *)
Variable nan : V.

(** The row test of the first filter: the stage contains [APPROVED] or
    [APPRAISAL] and the approval date is not before 2020. *)
Variable is_recent_active : gmap str V -> bool.

(** [pd.to_numeric(..., errors='coerce')] on a cell, and the test
    [>= 10000000]. *)
Variable to_numeric : option V -> V.
Variable at_least_10m : V -> bool.

Definition id_column : str := py "Project Id".
Definition commitment_column : str :=
  py "Total IBRD, IDA and GRANT Commitment $US".
Definition clean_column : str := py "Total_IBRD_IDA_clean".

(** [recent_active], taken from the table before the new column is
    added. *)
Definition recent_active (df : list (gmap str V)) : list (gmap str V) :=
  filter (fun r => is_recent_active r = true) df.

(** [df['Total_IBRD_IDA_clean'] = pd.to_numeric(...)] *)
Definition with_clean_total (df : list (gmap str V)) : list (gmap str V) :=
  (fun r : gmap str V =>
     <[clean_column := to_numeric (r !! commitment_column)]> r) <$> df.

(** [df['Total_IBRD_IDA_clean'] >= 10000000] on a row *)
Definition is_high_value (r : gmap str V) : bool :=
  match r !! clean_column with
  | Some total => at_least_10m total
  | None => false
  end.

Definition high_value (df : list (gmap str V)) : list (gmap str V) :=
  filter (fun r => is_high_value r = true) (with_clean_total df).

(** A row of the first table of [pd.concat] in the columns of the
    result: a column it has not is filled with the missing value. *)
Definition pad (r : gmap str V) : gmap str V :=
  match r !! clean_column with
  | Some _ => r
  | None => <[clean_column := nan]> r
  end.

(** [drop_duplicates(subset=[...])]: of the rows with one key, the first
    is kept; [seen] are the keys met so far. *)
Fixpoint drop_duplicates {A K : Type} `{EqDecision K} (key : A -> K)
    (seen : list K) (l : list A) : list A :=
  match l with
  | [] => []
  | x :: l' =>
      if decide (key x ∈ seen) then drop_duplicates key seen l'
      else x :: drop_duplicates key (key x :: seen) l'
  end.

(** [pd.concat([recent_active, high_value]).drop_duplicates(subset=['Project Id'])] *)
Definition priority_projects (df : list (gmap str V)) : list (gmap str V) :=
  drop_duplicates (fun r : gmap str V => r !! id_column) []
                  ((pad <$> recent_active df) ++ high_value df).

End WithValues.

End Priority.

(** * More concrete documents, tables and pages *)

Module MoreExamples.

Import Api.

(** The document of [two_field_project] with a field that is not
    listed. *)
Definition with_country : gmap str pyval :=
  <[py "countryname" := PStr (py "Kenya")]> Examples.two_field_project.

(** A short primary text and a long description. *)
Definition short_then_long : gmap str pyval :=
  {[ py "project_abstract" := PStr (py "Short text");
     py "description" := PStr Examples.fallback_text ]}.

(** A document without any listed field. *)
Definition only_country : gmap str pyval :=
  {[ py "countryname" := PStr (py "Kenya") ]}.

Definition only_country_world : world :=
  fun _ _ => Json (Some {[ py "P123456" := ProjectDict only_country ]}).

(** A table whose second locator was read as a number. *)
Definition number_row : gmap str cell :=
  {[ py "Project URL" := NonText; py "Name" := Str (py "Roads") ]}.

Definition with_number_locator : DataFrame :=
  {| columns := [py "Project URL"; py "Name"];
     rows := [Examples.first_row; number_row] |}.

(** The table [two_rows] with a third row, which has no locator. *)
Definition two_rows_then_more : DataFrame :=
  {| columns := [py "Project URL"; py "Name"];
     rows := [ Examples.first_row; Examples.second_row;
               {[ py "Project URL" := NaN; py "Name" := Str (py "Water") ]} ] |}.

(** Pages for the rows of a table: the request for the row at position 0
    fails, or none does. *)
Definition all_parsed : SimpleRun.pages :=
  fun _ _ => Simple.Parsed Examples.third_strategy_page.

Definition first_request_fails : SimpleRun.pages :=
  fun index url =>
    match index with
    | 0 => Simple.RequestFailed
    | _ => all_parsed index url
    end.

Definition all_loaded : BrowserRun.pages :=
  fun _ _ => Browser.Loaded (Examples.page_with Examples.second_paragraph).

Definition first_load_fails : BrowserRun.pages :=
  fun index url =>
    match index with
    | 0 => Browser.LoadFailed
    | _ => all_loaded index url
    end.

(** A heading followed by a short paragraph, on a page with a long
    container. *)
Definition short_after_heading : SimplePage.matches :=
  {| SimplePage.headings :=
       [ [ {| SimplePage.name := py "p";
              SimplePage.get_text := py " Short text " |} ] ];
     SimplePage.containers := [Examples.first_paragraph] |}.

(** One element of class [summary]. *)
Definition summary_class : SimplePage.class_matches :=
  {| SimplePage.with_class := fun pattern =>
       if decide (pattern = py "summary")
       then [py "  " ++ Examples.first_paragraph] else [];
     SimplePage.with_class_lower := fun _ => [] |}.

(** A page on which the first selector finds a paragraph and an element
    that cannot be read. *)
Definition page_with_stale : Browser.page :=
  {| Browser.find_elements := fun selector =>
       if decide (selector
                  = py "//h2[contains(text(), 'Abstract')]/following-sibling::*")
       then Browser.Elements [Some Examples.first_paragraph; None]
       else Browser.Elements [];
     Browser.show_more_button := Browser.NoSuchElement;
     Browser.patterns := [] |}.

(** A page on which no selector finds an element and the third pattern
    of the fallback finds a word. *)
Definition page_with_word : Browser.page :=
  {| Browser.find_elements := fun _ => Browser.Elements [];
     Browser.show_more_button := Browser.NoSuchElement;
     Browser.patterns := [None; Some (py "  "); Some (py " Roads ")] |}.

(** A main table of three projects, given by id and name, and a
    processed table with the second of them. *)
Definition main_table : list (str * str) :=
  [ (py "P1", py "Roads"); (py "P2", py "Health"); (py "P3", py "Water") ].

Definition processed_table : list (str * str) := [ (py "P2", py "Health") ].

(** Two projects of 25 million, one approved and one closed; a cell is
    its text, or missing. *)
Definition approved_row : gmap str (option str) :=
  {[ Priority.id_column := Some (py "P1");
     py "Last Stage Reached" := Some (py "APPROVED");
     Priority.commitment_column := Some (py "25000000") ]}.

Definition closed_row : gmap str (option str) :=
  {[ Priority.id_column := Some (py "P2");
     py "Last Stage Reached" := Some (py "CLOSED");
     Priority.commitment_column := Some (py "25000000") ]}.

Definition projects : list (gmap str (option str)) := [approved_row; closed_row].

Definition stage_is_approved (r : gmap str (option str)) : bool :=
  bool_decide (r !! py "Last Stage Reached" = Some (Some (py "APPROVED"))).

Definition as_number (c : option (option str)) : option str := default None c.

Definition is_25m (v : option str) : bool :=
  bool_decide (v = Some (py "25000000")).

End MoreExamples.

(** * Lemmas on the text primitives *)

Section TextLemmas.

Implicit Types (s t w : str) (ws : list str) (c : ascii).

Lemma py_blank : py " " = [" "%char].
Proof. reflexivity. Qed.

Lemma split_go_words s :
  Forall (fun c => is_space c = false) (split_go s).1
  /\ Forall word (split_go s).2.
Proof.
  induction s as [|c s [IHw IHws]]; simpl; [by split|].
  destruct (split_go s) as [w ws]; simpl in *.
  destruct (is_space c) eqn:Hc; simpl.
  - split; [constructor|].
    destruct w; simpl; [done|]. constructor; [|done]. by split.
  - split; [|done]. by constructor.
Qed.

Lemma split_words s : Forall word (split s).
Proof.
  unfold split. pose proof (split_go_words s) as [Hw Hws].
  destruct (split_go s) as [w ws]; simpl in *.
  destruct w; simpl; [done|]. constructor; [|done]. by split.
Qed.

Lemma tidy_tail_app_nonspace w t :
  Forall (fun c => is_space c = false) w -> tidy_tail (w ++ t) = tidy_tail t.
Proof.
  induction 1 as [|c w Hc _ IH]; simpl; [done|]. by rewrite Hc.
Qed.

Lemma tidy_tail_seps ws :
  Forall word ws -> tidy_tail (flat_map (fun x => " "%char :: x) ws) = true.
Proof.
  induction 1 as [|w ws [Hne Hw] _ IH]; [done|].
  cbn [flat_map app tidy_tail]. change (is_space " ") with true. cbn iota.
  rewrite tidy_tail_app_nonspace by done. rewrite IH.
  destruct w as [|d w]; [done|]. simpl.
  inversion Hw as [|?? Hd]; subst. by rewrite Hd.
Qed.

Lemma join_blank_cons w ws :
  join (py " ") (w :: ws) = w ++ flat_map (fun x => " "%char :: x) ws.
Proof. reflexivity. Qed.

Lemma tidy_join ws : Forall word ws -> tidy (join (py " ") ws) = true.
Proof.
  destruct 1 as [|w ws [Hne Hw] Hws]; [done|]. rewrite join_blank_cons.
  destruct w as [|c w]; [done|]. simpl.
  inversion Hw as [|?? Hc Hw']; subst. rewrite Hc. simpl.
  rewrite tidy_tail_app_nonspace by done. by apply tidy_tail_seps.
Qed.

Lemma tidy_collapse s : tidy (collapse s) = true.
Proof. apply tidy_join, split_words. Qed.

Lemma tidy_tail_of_tidy t : tidy t = true -> tidy_tail t = true.
Proof. destruct t; simpl; [done|]. by intros [_ ?]%andb_prop. Qed.

Lemma tidy_tail_cons c t : tidy_tail (c :: t) = true -> tidy_tail t = true.
Proof.
  simpl. destruct (is_space c); [|done].
  by intros [_ ?]%andb_prop.
Qed.

Lemma tidy_tail_drop n t : tidy_tail t = true -> tidy_tail (drop n t) = true.
Proof.
  revert t. induction n as [|n IH]; intros [|c t] H; simpl; try done.
  apply IH. by eapply tidy_tail_cons.
Qed.

Lemma rstrip_tidy_tail t : tidy_tail t = true -> rstrip t = t.
Proof.
  induction t as [|c t IH]; [done|]. intros H.
  pose proof (tidy_tail_cons _ _ H) as Ht. simpl. rewrite (IH Ht).
  destruct t as [|d t]; [|done].
  simpl in H. destruct (is_space c); [|done].
  by rewrite andb_false_r in H.
Qed.

Lemma lstrip_tidy_tail t : tidy_tail t = true -> tidy (lstrip t) = true.
Proof.
  destruct t as [|c t]; [done|]. intros H. simpl.
  destruct (is_space c) eqn:Hc.
  - simpl in H. rewrite Hc in H.
    apply andb_prop in H as [[_ Hd]%andb_prop Ht].
    destruct t as [|d t]; [done|].
    apply negb_true_iff in Hd. simpl in *. rewrite Hd in Ht |- *. simpl. rewrite Hd. exact Ht.
  - simpl in *. rewrite Hc in H |- *. exact H.
Qed.

Lemma tidy_strip_drop n t : tidy t = true -> tidy (strip (drop n t)) = true.
Proof.
  intros H%tidy_tail_of_tidy. unfold strip.
  pose proof (lstrip_tidy_tail _ (tidy_tail_drop n _ H)) as Hl.
  rewrite rstrip_tidy_tail; [done|]. by apply tidy_tail_of_tidy.
Qed.

Lemma tidy_remove_prefix t p : tidy t = true -> tidy (remove_prefix t p) = true.
Proof.
  intros H. unfold remove_prefix. destruct (startswith t p); [|done].
  by apply tidy_strip_drop.
Qed.

Lemma tidy_remove_prefixes ps t :
  tidy t = true -> tidy (remove_prefixes ps t) = true.
Proof.
  unfold remove_prefixes. revert t.
  induction ps as [|p ps IH]; intros t H; simpl; [done|].
  by apply IH, tidy_remove_prefix.
Qed.

Lemma tidy_clean_text text : tidy (_clean_text text) = true.
Proof. apply tidy_remove_prefixes, tidy_collapse. Qed.

End TextLemmas.

Section TidyFacts.

Implicit Types (s t w : str) (ws : list str) (c : ascii).

Lemma tidy_tail_app_r x t : tidy_tail (x ++ t) = true -> tidy_tail t = true.
Proof.
  induction x as [|c x IH]; simpl app; [done|].
  intros H. by eapply IH, tidy_tail_cons.
Qed.

Lemma tidy_well_spaced t : tidy t = true -> well_spaced t.
Proof.
  intros Ht. pose proof (tidy_tail_of_tidy _ Ht) as Htl.
  repeat split.
  - intros c t' ->. simpl in Ht.
    apply andb_prop in Ht as [Hc _]. by apply negb_true_iff.
  - intros c t' ->. apply tidy_tail_app_r in Htl. simpl in Htl.
    destruct (is_space c); [|done]. by rewrite andb_false_r in Htl.
  - intros x a b y -> Ha Hb. apply tidy_tail_app_r in Htl.
    simpl in Htl. rewrite Ha, Hb in Htl. simpl in Htl.
    by rewrite andb_false_r in Htl.
  - intros c [x [y ->]]%list_elem_of_split Hc.
    apply tidy_tail_app_r in Htl. simpl in Htl. rewrite Hc in Htl.
    apply andb_prop in Htl as [[Hd _]%andb_prop _].
    by apply bool_decide_eq_true in Hd.
Qed.

(** On a tidy text, splitting and joining gives the text back. *)
Lemma split_go_cons c s :
  split_go (c :: s)
  = if is_space c then ([], push (split_go s).1 (split_go s).2)
    else (c :: (split_go s).1, (split_go s).2).
Proof. simpl. by destruct (split_go s). Qed.

Lemma split_go_head c t :
  is_space c = false -> (split_go (c :: t)).1 <> [].
Proof. intros Hc. rewrite split_go_cons, Hc. done. Qed.

Lemma split_go_tidy_tail t :
  tidy_tail t = true ->
  t = (split_go t).1 ++ flat_map (fun x => " "%char :: x) (split_go t).2.
Proof.
  induction t as [|c t IH]; [done|]. intros H.
  pose proof (tidy_tail_cons _ _ H) as Ht. specialize (IH Ht).
  rewrite split_go_cons. simpl in H. destruct (is_space c) eqn:Hc.
  - apply andb_prop in H as [[Heq Hd]%andb_prop _].
    apply bool_decide_eq_true in Heq as ->.
    destruct t as [|d t]; [done|]. apply negb_true_iff in Hd.
    pose proof (split_go_head d t Hd) as Hne.
    destruct (split_go (d :: t)) as [w ws]. simpl in *.
    destruct w as [|e w]; [done|]. simpl in *. congruence.
  - simpl in *. congruence.
Qed.

Lemma collapse_tidy t : tidy t = true -> collapse t = t.
Proof.
  intros Ht. destruct t as [|c t]; [done|].
  pose proof (tidy_tail_of_tidy _ Ht) as Htl.
  simpl in Ht. apply andb_prop in Ht as [Hc%negb_true_iff _].
  pose proof (split_go_head c t Hc) as Hne.
  pose proof (split_go_tidy_tail _ Htl) as Heq.
  unfold collapse, split. destruct (split_go (c :: t)) as [w ws].
  simpl in Hne, Heq. destruct w as [|e w]; [done|].
  cbn [push]. by rewrite join_blank_cons.
Qed.

(** Whitespace collapse is idempotent. *)
Lemma collapse_idempotent s : collapse (collapse s) = collapse s.
Proof. apply collapse_tidy, tidy_collapse. Qed.

(** Lengths never grow. *)
Lemma length_lstrip s : length (lstrip s) <= length s.
Proof. induction s as [|c s IH]; simpl; [lia|]. destruct (is_space c); simpl; lia. Qed.

Lemma length_rstrip s : length (rstrip s) <= length s.
Proof.
  induction s as [|c s IH]; simpl; [lia|].
  destruct (rstrip s); [destruct (is_space c)|]; simpl in *; lia.
Qed.

Lemma length_strip s : length (strip s) <= length s.
Proof.
  unfold strip. pose proof (length_rstrip (lstrip s)).
  pose proof (length_lstrip s). lia.
Qed.

Lemma startswith_prefix t p : startswith t p = true <-> p `prefix_of` t.
Proof.
  revert t. induction p as [|a p IH]; intros t.
  - split; [intros _; apply prefix_nil | by destruct t].
  - destruct t as [|c t].
    + split; [done|]. intros [k Hk]. discriminate.
    + cbn [startswith]. destruct (decide (a = c)) as [->|Hac].
      * rewrite IH. split; [apply prefix_cons|].
        by intros ?%prefix_cons_inv_2.
      * split; [done|]. by intros ?%prefix_cons_inv_1.
Qed.

Lemma length_remove_prefix t p : length (remove_prefix t p) <= length t.
Proof.
  unfold remove_prefix. destruct (startswith t p); [|lia].
  pose proof (length_strip (drop (length p) t)).
  rewrite length_drop in *. lia.
Qed.

Lemma length_remove_prefix_lt t p :
  p <> [] -> startswith t p = true -> length (remove_prefix t p) < length t.
Proof.
  intros Hp Hs. unfold remove_prefix. rewrite Hs.
  apply startswith_prefix, prefix_length in Hs.
  pose proof (length_strip (drop (length p) t)).
  rewrite length_drop in *. destruct p; [done|]. simpl in *. lia.
Qed.

Lemma length_remove_prefixes ps t : length (remove_prefixes ps t) <= length t.
Proof.
  unfold remove_prefixes. revert t.
  induction ps as [|p ps IH]; intros t; simpl; [lia|].
  pose proof (IH (remove_prefix t p)). pose proof (length_remove_prefix t p). lia.
Qed.

Lemma remove_prefixes_none ps t :
  Forall (fun p => startswith t p = false) ps -> remove_prefixes ps t = t.
Proof.
  unfold remove_prefixes.
  induction 1 as [|p ps Hp _ IH]; simpl; [done|].
  unfold remove_prefix at 2. by rewrite Hp.
Qed.

Lemma remove_prefixes_shorter ps t :
  Forall (fun p => p <> []) ps ->
  Exists (fun p => startswith t p = true) ps ->
  length (remove_prefixes ps t) < length t.
Proof.
  intros Hne Hex. revert Hne.
  induction Hex as [p ps Hp|p ps _ IH]; intros [Hp' Hps]%Forall_cons.
  - pose proof (length_remove_prefix_lt t p Hp' Hp).
    pose proof (length_remove_prefixes ps (remove_prefix t p)).
    unfold remove_prefixes in *. simpl. lia.
  - destruct (startswith t p) eqn:Hs.
    + pose proof (length_remove_prefix_lt t p Hp' Hs).
      pose proof (length_remove_prefixes ps (remove_prefix t p)).
      unfold remove_prefixes in *. simpl. lia.
    + specialize (IH Hps). unfold remove_prefixes in *. simpl.
      unfold remove_prefix at 2. by rewrite Hs.
Qed.

Lemma remove_prefixes_split pre p post t :
  Forall (fun q => startswith t q = false) pre ->
  startswith t p = true ->
  remove_prefixes (pre ++ p :: post) t
  = remove_prefixes post (strip (drop (length p) t)).
Proof.
  intros Hpre Hp. unfold remove_prefixes. rewrite foldl_app.
  fold (remove_prefixes pre t). rewrite remove_prefixes_none by done.
  simpl. unfold remove_prefix at 2. by rewrite Hp.
Qed.

End TidyFacts.

(** * The normalizer: claims C2 and C3 *)

Lemma simple_clean_text_same text : simple_clean_text text = _clean_text text.
Proof. reflexivity. Qed.

Lemma prefixes_not_empty : Forall (fun p : str => p <> []) prefixes_to_remove.
Proof. repeat constructor; discriminate. Qed.

Lemma clean_text_fixed t :
  tidy t = true ->
  Forall (fun p => startswith t p = false) prefixes_to_remove ->
  _clean_text t = t.
Proof.
  intros Ht Hps. unfold _clean_text. rewrite collapse_tidy by done.
  by apply remove_prefixes_none.
Qed.

(** C2, refuted: cleaning [Abstract Abstract foo] once leaves
    [Abstract foo], and cleaning that again leaves [foo]. *)
Lemma clean_text_not_idempotent :
  _clean_text (py "Abstract Abstract foo") = py "Abstract foo"
  /\ _clean_text (_clean_text (py "Abstract Abstract foo")) = py "foo"
  /\ _clean_text (_clean_text (py "Abstract Abstract foo"))
     <> _clean_text (py "Abstract Abstract foo").
Proof. vm_compute. repeat split; discriminate. Qed.

Lemma clean_text_fixed_iff y :
  tidy y = true ->
  _clean_text y = y
  <-> Forall (fun p => startswith y p = false) prefixes_to_remove.
Proof.
  intros Ht. split; [|by apply clean_text_fixed].
  intros Heq.
  destruct (decide (Forall (fun p => startswith y p = false) prefixes_to_remove))
    as [|Hn]; [done|exfalso].
  apply not_Forall_Exists in Hn; [|intros p; apply _].
  assert (Exists (fun p => startswith y p = true) prefixes_to_remove) as Hex.
  { eapply Exists_impl; [exact Hn|]. intros p Hp. simpl in Hp.
    by destruct (startswith y p). }
  pose proof (remove_prefixes_shorter _ y prefixes_not_empty Hex) as Hlt.
  unfold _clean_text in Heq. rewrite collapse_tidy in Heq by done.
  rewrite Heq in Hlt. lia.
Qed.

(** C2, amended: cleaning a cleaned text changes nothing exactly when
    the cleaned text starts with none of the listed prefixes; the
    whitespace collapse alone is idempotent. *)
Theorem clean_text_idempotent_iff (x : str) :
  (_clean_text (_clean_text x) = _clean_text x
   <-> Forall (fun p => startswith (_clean_text x) p = false) prefixes_to_remove)
  /\ collapse (collapse x) = collapse x.
Proof.
  split; [|apply collapse_idempotent].
  apply clean_text_fixed_iff, tidy_clean_text.
Qed.

Lemma longest_first_lookup ps i j p q :
  longest_first ps = true -> ps !! i = Some p -> ps !! j = Some q -> i < j ->
  startswith q p = false.
Proof.
  revert i j. induction ps as [|a ps IH]; intros i j H Hi Hj Hlt; [done|].
  simpl in H. apply andb_prop in H as [Hall Hrest].
  destruct j as [|j]; [lia|]. simpl in Hj.
  destruct i as [|i]; simpl in Hi.
  - injection Hi as ->. rewrite forallb_forall in Hall.
    apply negb_true_iff, Hall, list_elem_of_In. by eapply list_elem_of_lookup_2.
  - eapply IH; [done..|lia].
Qed.

Lemma prefixes_longest_first : longest_first prefixes_to_remove = true.
Proof. vm_compute. reflexivity. Qed.

(** C3, refuted: two listed prefixes are removed in sequence from
    [Abstract: Description: foo], where removing one only would leave
    [Description: foo]. *)
Lemma clean_text_removes_two_prefixes :
  _clean_text (py "Abstract: Description: foo") = py "foo"
  /\ normalize_at_most_one (py "Abstract: Description: foo")
     = py "Description: foo"
  /\ _clean_text (py "Abstract: Description: foo")
     <> normalize_at_most_one (py "Abstract: Description: foo").
Proof. vm_compute. repeat split; discriminate. Qed.

(** C3, amended: the normalizer tests every listed prefix once, in the
    order of the list, against the text as it then is, and removes each
    one that matches, so several can go in sequence.  The first prefix
    it removes is the longest listed prefix of the collapsed input; when
    no listed prefix matches, the collapsed input is returned.
    [Project Abstract: Foo] gives [Foo], in both scrapers with a
    [_clean_text]. *)
Theorem clean_text_first_prefix_longest (text : str) :
  match list_find (fun p => startswith (collapse text) p = true)
                  prefixes_to_remove with
  | Some (i, p) =>
      (forall q, q ∈ prefixes_to_remove ->
                 startswith (collapse text) q = true -> length q <= length p)
      /\ _clean_text text
         = remove_prefixes (drop (S i) prefixes_to_remove)
                           (strip (drop (length p) (collapse text)))
  | None => _clean_text text = collapse text
  end
  /\ _clean_text (py "Project Abstract: Foo") = py "Foo"
  /\ simple_clean_text (py "Project Abstract: Foo") = py "Foo".
Proof.
  split; [|by vm_compute].
  set (t := collapse text).
  destruct (list_find _ _) as [[i p]|] eqn:Hfind.
  - apply list_find_Some in Hfind as (Hi & Hp & Hbefore). split.
    + intros q [j Hj]%list_elem_of_lookup Hq.
      destruct (decide (j < i)) as [Hlt|Hge].
      { by destruct (Hbefore j q Hj Hlt). }
      destruct (decide (j = i)) as [->|Hne].
      { rewrite Hi in Hj. injection Hj as ->. lia. }
      pose proof (longest_first_lookup _ i j p q prefixes_longest_first Hi Hj
                    ltac:(lia)) as Hpq.
      apply startswith_prefix in Hp. apply startswith_prefix in Hq.
      destruct (prefix_weak_total _ _ _ Hp Hq) as [Hpre|Hpre].
      * apply startswith_prefix in Hpre. congruence.
      * by apply prefix_length.
    + unfold _clean_text. fold t.
      rewrite <- (take_drop_middle _ _ _ Hi) at 1.
      apply remove_prefixes_split; [|done].
      apply Forall_forall. intros q [j Hj]%list_elem_of_lookup.
      apply lookup_take_Some in Hj as [Hj Hlt].
      specialize (Hbefore j q Hj Hlt). by destruct (startswith t q).
  - apply list_find_None in Hfind. unfold _clean_text. fold t.
    apply remove_prefixes_none. eapply Forall_impl; [exact Hfind|].
    intros q Hq. simpl in Hq. by destruct (startswith t q).
Qed.

(** * The identifier resolver: claim C6 *)

Section Resolver.

Import Api.

Lemma digits_split s :
  exists rest, s = digits s ++ rest
    /\ Forall (fun d => is_digit d = true) (digits s)
    /\ (forall d rest', rest = d :: rest' -> is_digit d = false).
Proof.
  induction s as [|c s (rest & Heq & Hds & Hrest)]; simpl.
  - exists []. by repeat split.
  - destruct (is_digit c) eqn:Hc.
    + exists rest. simpl. split; [congruence|]. split; [by constructor|done].
    + exists (c :: s). repeat split; [constructor|]. by intros d rest' [= <- _].
Qed.

Lemma match_at_Some s group :
  match_at s = Some group ->
  exists ds rest, s = literal ++ ds ++ rest /\ group = "P"%char :: ds
    /\ ds <> [] /\ Forall (fun d => is_digit d = true) ds
    /\ (forall d rest', rest = d :: rest' -> is_digit d = false).
Proof.
  unfold match_at. destruct (startswith s literal) eqn:Hs; [|done].
  apply startswith_prefix in Hs as [k ->]. rewrite drop_app_length.
  destruct (digits_split k) as (rest & Hk & Hds & Hrest).
  destruct (digits k) as [|d ds] eqn:Hd; [done|]. intros [= <-].
  exists (d :: ds), rest. split; [congruence|]. by repeat split.
Qed.

Lemma match_at_None s :
  match_at s = None ->
  forall d rest, s = literal ++ d :: rest -> is_digit d = false.
Proof.
  unfold match_at. intros H d rest ->.
  assert (startswith (literal ++ d :: rest) literal = true) as Hs.
  { apply startswith_prefix. by eexists. }
  rewrite Hs, drop_app_length in H. simpl in H.
  by destruct (is_digit d).
Qed.

(** What [re.search] finds: the leftmost place where the literal part is
    followed by a digit, and there the longest run of digits. *)
Lemma search_spec url :
  match search url with
  | Some code =>
      exists pre ds rest,
        url = pre ++ literal ++ ds ++ rest
        /\ code = "P"%char :: ds
        /\ ds <> [] /\ Forall (fun d => is_digit d = true) ds
        /\ (forall d rest', rest = d :: rest' -> is_digit d = false)
        /\ (forall pre' d rest',
              url = pre' ++ literal ++ d :: rest' -> is_digit d = true ->
              length pre <= length pre')
  | None =>
      forall pre d rest, url = pre ++ literal ++ d :: rest -> is_digit d = false
  end.
Proof.
  induction url as [|c url IH].
  - simpl. intros pre d rest H. by destruct pre.
  - cbn [search]. destruct (match_at (c :: url)) as [group|] eqn:Hm.
    + apply match_at_Some in Hm as (ds & rest & Hurl & -> & ? & ? & ?).
      exists [], ds, rest. repeat split; try done. simpl. lia.
    + pose proof (match_at_None _ Hm) as Hhere.
      destruct (search url) as [code|].
      * destruct IH as (pre & ds & rest & -> & -> & ? & ? & ? & Hleft).
        exists (c :: pre), ds, rest. repeat split; try done.
        intros [|c' pre'] d rest' Heq Hd.
        { simpl in Heq. specialize (Hhere d rest' Heq). congruence. }
        injection Heq as -> Heq. specialize (Hleft pre' d rest' Heq Hd).
        simpl. lia.
      * intros [|c' pre] d rest Heq.
        { by apply (Hhere d rest). }
        injection Heq as -> Heq. by apply (IH pre d rest).
Qed.

End Resolver.

(** C6, refuted: the locator [https://projects.worldbank.org/P123456]
    has the key [P123456] as a path segment, and so has
    [https://projects.worldbank.org/project-detail/X123456] the key
    [X123456]; no code is resolved from either. *)
Lemma extract_project_id_needs_literal :
  embedded_key (py "P123456") (py "https://projects.worldbank.org/P123456")
  /\ Api.extract_project_id (py "https://projects.worldbank.org/P123456") = None
  /\ embedded_key (py "X123456")
       (py "https://projects.worldbank.org/project-detail/X123456")
  /\ Api.extract_project_id
       (py "https://projects.worldbank.org/project-detail/X123456") = None.
Proof.
  repeat split.
  - exists "P"%char, (py "123456"). repeat split; [discriminate|].
    repeat constructor.
  - exists (py "P123456"), [], []. split; [|reflexivity].
    exists (py "https://projects.worldbank.org"), []. repeat split.
    + simpl. intros H. repeat (destruct H as [H|H]; [discriminate H|]). done.
    + by left.
  - exists "X"%char, (py "123456"). repeat split; [discriminate|].
    repeat constructor.
  - exists (py "X123456"), [], []. split; [|reflexivity].
    exists (py "https://projects.worldbank.org/project-detail"), [].
    repeat split.
    + simpl. intros H. repeat (destruct H as [H|H]; [discriminate H|]). done.
    + by left.
Qed.

(** C6, amended: [extract_project_id] resolves a code exactly from the
    locators in which the text [/project-detail/P] is followed by a
    digit; the code is the [P] with the longest run of digits after the
    leftmost such place.  From every other string it returns [None].  It
    is a function of the locator alone and raises nowhere. *)
Theorem extract_project_id_spec (url : str) :
  match Api.extract_project_id url with
  | Some code =>
      exists pre ds rest,
        url = pre ++ py "/project-detail/P" ++ ds ++ rest
        /\ code = "P"%char :: ds
        /\ ds <> [] /\ Forall (fun d => is_digit d = true) ds
        /\ (forall d rest', rest = d :: rest' -> is_digit d = false)
        /\ (forall pre' d rest',
              url = pre' ++ py "/project-detail/P" ++ d :: rest' ->
              is_digit d = true -> length pre <= length pre')
  | None =>
      forall pre d rest,
        url = pre ++ py "/project-detail/P" ++ d :: rest -> is_digit d = false
  end.
Proof. apply search_spec. Qed.

(** * The batch orchestrator: claims C1, C7, C9 and C10 *)

Section Batch.

Import Api.

Implicit Types (w : world) (delay : Z) (df : DataFrame) (r row : gmap str cell)
  (rs pending done : list (gmap str cell)) (tr : list event).

Lemma set_at_middle done row pending output_column value :
  set_at (length done) output_column value (done ++ row :: pending)
  = done ++ <[output_column := Str value]> row :: pending.
Proof.
  unfold set_at. rewrite alter_app_r_alt by lia.
  by rewrite Nat.sub_diag.
Qed.

(** The loop either raises on a row it cannot read, or leaves every row
    as [processed_row] describes. *)
Lemma for_rows_shape w delay url_column output_column pending :
  forall index done tr,
    length done = index ->
    match (for_rows w delay url_column output_column index pending
                    (done ++ pending) tr).2 with
    | Returned rs =>
        rs = done ++ imap (fun j => processed_row w delay url_column
                                      output_column (index + j)) pending
    | Raised _ =>
        Exists (fun r => r !! url_column = None \/ r !! url_column = Some NonText)
               pending
    end.
Proof.
  induction pending as [|row pending IH]; intros index done tr Hlen.
  - simpl. by rewrite app_nil_r.
  - assert (forall rs' tr' r',
      rs' = (done ++ [r']) ++ pending ->
      r' = processed_row w delay url_column output_column (index + 0) row ->
      match (for_rows w delay url_column output_column (S index) pending rs' tr').2 with
      | Returned rs =>
          rs = done ++ imap (fun j => processed_row w delay url_column
                                        output_column (index + j)) (row :: pending)
      | Raised _ =>
          Exists (fun r => r !! url_column = None \/ r !! url_column = Some NonText)
                 (row :: pending)
      end) as Hnext.
    { intros rs' tr' r' -> ->.
      specialize (IH (S index) (done ++ [processed_row w delay url_column
                        output_column (index + 0) row]) tr').
      rewrite length_app in IH. simpl in IH.
      specialize (IH ltac:(lia)).
      destruct (for_rows _ _ _ _ _ _ _ _).2 as [rs|e].
      - rewrite IH, <- app_assoc. simpl. do 2 f_equal.
        apply imap_ext. intros j r _. simpl. f_equal. lia.
      - by apply Exists_cons_tl. }
    cbn [for_rows].
    destruct (row !! url_column) as [[|url|]|] eqn:Hrow.
    + apply (Hnext _ _ row); [by rewrite <- app_assoc|].
      unfold processed_row. by rewrite Hrow.
    + destruct (truthy (strip url)) eqn:Hurl.
      * subst index.
        destruct (extract_abstract w delay (length done) url)
          as [tr' [abstract|e]] eqn:Hex; rewrite set_at_middle.
        -- apply (Hnext _ _ (<[output_column := Str abstract]> row));
             [by rewrite <- app_assoc|].
           unfold processed_row. rewrite Hrow. simpl.
           by rewrite Hurl, Nat.add_0_r, Hex.
        -- apply (Hnext _ _ (<[output_column := Str []]> row));
             [by rewrite <- app_assoc|].
           unfold processed_row. rewrite Hrow. simpl.
           by rewrite Hurl, Nat.add_0_r, Hex.
      * apply (Hnext _ _ row); [by rewrite <- app_assoc|].
        unfold processed_row. rewrite Hrow. simpl. by rewrite Hurl.
    + apply Exists_cons_hd. by right.
    + apply Exists_cons_hd. by left.
Qed.



Lemma extract_abstract_outcome w delay index url :
  (extract_abstract w delay index url).2
  = if (delay <? 0)%Z
    then Raised (ValueError (py "sleep length must be non-negative"))
    else Returned match (extract_abstract_body w index url).2 with
                  | Returned abstract => abstract
                  | Raised _ => []
                  end.
Proof.
  unfold extract_abstract. by destruct (extract_abstract_body w index url).
Qed.


(** The frame saved by a run that returns. *)
Lemma process_csv_shape w delay df url_column output_column :
  url_column ∈ columns df ->
  match (process_csv w delay df url_column output_column).2 with
  | Returned rep =>
      saved rep
      = {| columns := columns (set_column output_column df);
           rows := imap (processed_row w delay url_column output_column)
                        (rows (set_column output_column df)) |}
      /\ successful_extractions rep
         = count_not_empty output_column (rows (saved rep))
      /\ total_urls rep = length (rows df)
  | Raised _ =>
      Exists (fun r => r !! url_column = None \/ r !! url_column = Some NonText)
             (rows (set_column output_column df))
  end.
Proof.
  intros Hcol. unfold process_csv. rewrite decide_True by done.
  pose proof (for_rows_shape w delay url_column output_column
                (rows (set_column output_column df)) 0 [] [] eq_refl) as H.
  simpl app in H.
  destruct (for_rows _ _ _ _ _ _ _ _) as [tr [rs|e]]; simpl in H |- *.
  - subst rs. repeat split. by rewrite length_fmap.
  - done.
Qed.

Lemma process_csv_saved w delay df url_column output_column tr rep :
  url_column ∈ columns df ->
  process_csv w delay df url_column output_column = (tr, Returned rep) ->
  saved rep
  = {| columns := columns (set_column output_column df);
       rows := imap (processed_row w delay url_column output_column)
                    (rows (set_column output_column df)) |}
  /\ successful_extractions rep
     = count_not_empty output_column (rows (saved rep))
  /\ total_urls rep = length (rows df).
Proof.
  intros Hcol Hrun.
  pose proof (process_csv_shape w delay df url_column output_column Hcol) as H.
  by rewrite Hrun in H.
Qed.

Lemma init_locator url_column output_column r c :
  <[output_column := Str []]> r !! url_column = Some c ->
  (url_column = output_column /\ c = Str [])
  \/ (url_column <> output_column /\ r !! url_column = Some c).
Proof.
  destruct (decide (url_column = output_column)) as [->|Hne].
  - rewrite lookup_insert_eq. intros [= <-]. by left.
  - rewrite lookup_insert_ne by done. by right.
Qed.

Lemma process_csv_returns w delay df url_column output_column :
  frame_ok df -> text_column url_column df -> url_column ∈ columns df ->
  exists tr rep,
    process_csv w delay df url_column output_column = (tr, Returned rep).
Proof.
  intros Hok Htext Hcol.
  pose proof (process_csv_shape w delay df url_column output_column Hcol) as H.
  destruct (process_csv _ _ _ _ _) as [tr [rep|e]]; [by eauto|exfalso].
  simpl in H. apply Exists_exists in H as (r' & Hin & Hbad).
  apply list_elem_of_fmap in Hin as (r & -> & Hin).
  unfold frame_ok in Hok. rewrite Forall_forall in Hok.
  unfold text_column in Htext. rewrite Forall_forall in Htext.
  specialize (Hok r Hin). rewrite Forall_forall in Hok.
  destruct (Hok url_column Hcol) as [c Hc]. specialize (Htext r Hin).
  destruct (decide (url_column = output_column)) as [->|Hne].
  - rewrite lookup_insert_eq in Hbad. by destruct Hbad.
  - rewrite lookup_insert_ne in Hbad by done. destruct Hbad; congruence.
Qed.

(** An exception of the loop comes from a locator cell that it cannot
    read, and tells which kind. *)
Lemma for_rows_raised w delay url_column output_column pending :
  forall index rs tr tr' e,
    for_rows w delay url_column output_column index pending rs tr
    = (tr', Raised e) ->
    (e = AttributeError
     /\ Exists (fun r => r !! url_column = Some NonText) pending)
    \/ (e = KeyError url_column
        /\ Exists (fun r => r !! url_column = None) pending).
Proof.
  induction pending as [|row pending IH]; intros index rs tr tr' e;
    cbn [for_rows]; [done|].
  assert (forall rs0 tr0,
            for_rows w delay url_column output_column (S index) pending rs0 tr0
            = (tr', Raised e) ->
            (e = AttributeError
             /\ Exists (fun r => r !! url_column = Some NonText) (row :: pending))
            \/ (e = KeyError url_column
                /\ Exists (fun r => r !! url_column = None) (row :: pending)))
    as Hnext.
  { intros rs0 tr0 H.
    destruct (IH _ _ _ _ _ H) as [[He Hex]|[He Hex]]; [left|right];
      (split; [done|by apply Exists_cons_tl]). }
  destruct (row !! url_column) as [[|url|]|] eqn:Hrow.
  - apply Hnext.
  - destruct (truthy (strip url)); [|apply Hnext].
    destruct (extract_abstract w delay index url) as [tr0 [abstract|e0]];
      apply Hnext.
  - intros [= <- <-]. left. split; [done|]. by apply Exists_cons_hd.
  - intros [= <- <-]. right. split; [done|]. by apply Exists_cons_hd.
Qed.

(** The result field of a row after a run, from the row before it. *)
Lemma result_at_processed w delay df url_column output_column index r :
  rows df !! index = Some r ->
  result_at output_column
    {| columns := columns (set_column output_column df);
       rows := imap (processed_row w delay url_column output_column)
                    (rows (set_column output_column df)) |} index
  = Some (Str (default []
       (<[output_column := Str []]> r !! url_column
          ≫= row_abstract w delay index))).
Proof.
  intros Hr. unfold result_at. simpl.
  rewrite list_lookup_imap, list_lookup_fmap, Hr. simpl.
  unfold processed_row.
  destruct (_ ≫= _) as [abstract|]; simpl.
  - by rewrite lookup_insert_eq.
  - by rewrite lookup_insert_eq.
Qed.

Lemma other_fields_kept w delay url_column output_column index r c :
  c <> output_column ->
  processed_row w delay url_column output_column index
    (<[output_column := Str []]> r) !! c = r !! c.
Proof.
  intros Hc. unfold processed_row.
  destruct (_ ≫= _); by rewrite !lookup_insert_ne.
Qed.


Lemma extract_abstract_tidy w delay index url abstract :
  (extract_abstract w delay index url).2 = Returned abstract ->
  tidy abstract = true.
Proof.
  rewrite extract_abstract_outcome. destruct (delay <? 0)%Z; [done|].
  intros [= <-]. unfold extract_abstract_body.
  destruct (extract_project_id url); [|done]. cbn [snd].
  destruct (get_project_data _ _ _) as [[d|b1 b2]|]; try done.
  - case_decide; [done|].
    destruct (truthy _); [apply tidy_clean_text | done].
  - by destruct (b1 && b2).
Qed.

End Batch.


(** C7, as the specification has it, fails: a frame that has the
    locator column, with a locator that was read as a number in its
    second row.  The first row is requested and written; then
    [url.strip()] raises [AttributeError] out of [process_csv], and
    nothing is saved. *)
Theorem locator_failure_crosses_boundary :
  py "Project URL" ∈ Api.columns MoreExamples.with_number_locator
  /\ Api.process_csv Examples.all_answered 0 MoreExamples.with_number_locator
       (py "Project URL") (py "Abstract")
     = ([Api.Get 0 (py "P100001"); Api.Sleep 0;
         Api.SetAt 0 Examples.health_text],
        Raised AttributeError).
Proof.
  split; [vm_compute; by left|]. vm_compute. reflexivity.
Qed.

(** C7: when the frame has no column of the configured locator name,
    [process_csv] raises a [ValueError] whose message lists the columns
    of the frame, having made no request, written no cell and saved no
    file.  It is not the only exception that leaves [process_csv]: on a
    frame that has the locator column, a locator cell that is neither
    text nor missing raises [AttributeError].  There is no third one on
    a frame in which every row has a cell for every column, as the
    frames that pandas reads have. *)
Theorem missing_column_fails_fast (w : Api.world) (delay : Z)
    (df : Api.DataFrame) (url_column output_column : str) :
  (url_column ∉ Api.columns df ->
   Api.process_csv w delay df url_column output_column
   = ([], Raised (ValueError
            (py "Column '" ++ url_column
               ++ py "' not found in CSV. Available columns: "
               ++ join (py ", ") (Api.columns df)))))
  /\ (forall tr e,
        Api.process_csv w delay df url_column output_column = (tr, Raised e) ->
        ((url_column ∉ Api.columns df) /\ tr = [])
        \/ (url_column ∈ Api.columns df
            /\ url_column <> output_column
            /\ e = AttributeError
            /\ exists r, r ∈ Api.rows df
                         /\ r !! url_column = Some Api.NonText)
        \/ (url_column ∈ Api.columns df
            /\ e = KeyError url_column
            /\ ~ Api.frame_ok df)).
Proof.
  split.
  - intros Hcol. unfold Api.process_csv. by rewrite decide_False.
  - intros tr e Hrun. unfold Api.process_csv in Hrun.
    destruct (decide (url_column ∈ Api.columns df)) as [Hcol|Hcol].
    + right. cbv zeta in Hrun.
      destruct (Api.for_rows _ _ _ _ _ _ _ _) as [tr0 [rs|e0]] eqn:Hloop;
        [done|]. injection Hrun as <- <-.
      apply for_rows_raised in Hloop as [[-> Hex]|[-> Hex]];
        apply Exists_exists in Hex as (r' & Hin & Hbad);
        apply list_elem_of_fmap in Hin as (r & -> & Hin).
      * left. apply init_locator in Hbad as [[_ [=]]|[Hne Hbad]].
        split; [done|]. split; [done|]. split; [done|]. by exists r.
      * right. split; [done|]. split; [done|]. intros Hok.
        destruct (decide (url_column = output_column)) as [->|Hne].
        -- by rewrite lookup_insert_eq in Hbad.
        -- rewrite lookup_insert_ne in Hbad by done.
           unfold Api.frame_ok in Hok. rewrite Forall_forall in Hok.
           specialize (Hok r Hin). rewrite Forall_forall in Hok.
           destruct (Hok url_column Hcol) as [c Hc]. congruence.
    + left. by injection Hrun as <- _.
Qed.

(** C9: [process_csv] sets the result column of every row to the empty
    string before the loop.  Two frames that differ in the values of
    that column only give the same run.  On a frame whose locator column
    was read as text the run returns, and the result of every row is
    what the loop wrote for its locator, or the empty string: nothing of
    what the column held before is left, and a row skipped for a missing
    or blank locator ends with an empty result. *)
Theorem output_column_overwritten (w : Api.world) (delay : Z)
    (df : Api.DataFrame) (url_column output_column : str) :
  (forall df' : Api.DataFrame,
     Api.columns df' = Api.columns df ->
     (fun r : gmap str Api.cell => delete output_column r) <$> Api.rows df'
     = (fun r : gmap str Api.cell => delete output_column r) <$> Api.rows df ->
     Api.process_csv w delay df' url_column output_column
     = Api.process_csv w delay df url_column output_column)
  /\ (Api.frame_ok df -> Api.text_column url_column df ->
      url_column ∈ Api.columns df ->
      exists tr rep,
        Api.process_csv w delay df url_column output_column
        = (tr, Returned rep)
        /\ forall index r,
             Api.rows df !! index = Some r ->
             Api.result_at output_column (Api.saved rep) index
             = Some (Api.Str (default []
                  (<[output_column := Api.Str []]> r !! url_column
                     ≫= Api.row_abstract w delay index)))
             /\ forall c,
                  r !! url_column = Some c ->
                  Api.blank_locator c = true ->
                  Api.result_at output_column (Api.saved rep) index
                  = Some (Api.Str [])).
Proof.
  split.
  - intros df' Hcols Hrows.
    assert (Api.set_column output_column df' = Api.set_column output_column df)
      as Hset.
    { unfold Api.set_column. rewrite Hcols. f_equal.
      transitivity ((fun r : gmap str Api.cell => <[output_column := Api.Str []]> r)
                      <$> ((fun r : gmap str Api.cell => delete output_column r)
                             <$> Api.rows df')).
      - rewrite <- list_fmap_compose. apply list_fmap_ext.
        intros i r _. simpl. by rewrite insert_delete_eq.
      - rewrite Hrows, <- list_fmap_compose. apply list_fmap_ext.
        intros i r _. simpl. by rewrite insert_delete_eq. }
    unfold Api.process_csv, Api.column_not_found. by rewrite Hcols, Hset.
  - intros Hok Htext Hcol.
    destruct (process_csv_returns w delay df url_column output_column
                Hok Htext Hcol) as (tr & rep & Hrun).
    exists tr, rep. split; [done|]. intros index r Hr.
    destruct (process_csv_saved w delay df url_column output_column tr rep
                Hcol Hrun) as (Hsaved & _).
    rewrite Hsaved, (result_at_processed _ _ _ _ _ _ r) by done.
    split; [done|]. intros c Hc Hblank. do 2 f_equal.
    destruct (decide (url_column = output_column)) as [->|Hne].
    + by rewrite lookup_insert_eq.
    + rewrite lookup_insert_ne, Hc by done. simpl.
      destruct c as [|url|]; simpl in *; [done| |done].
      by destruct (truthy (strip url)).
Qed.

(** C10: the output of the normalizer has no whitespace at either end,
    no two whitespace characters in a row, and no whitespace character
    other than the blank; so has every abstract that [extract_abstract]
    returns, and every result field of the frame that [process_csv]
    saves. *)
Theorem clean_text_well_spaced :
  (forall text : str, well_spaced (_clean_text text))
  /\ (forall (w : Api.world) (delay : Z) (index : nat) (url abstract : str),
        (Api.extract_abstract w delay index url).2 = Returned abstract ->
        well_spaced abstract)
  /\ (forall (w : Api.world) (delay : Z) (df : Api.DataFrame)
             (url_column output_column : str) tr rep (index : nat)
             (c : Api.cell),
        Api.process_csv w delay df url_column output_column
        = (tr, Returned rep) ->
        Api.result_at output_column (Api.saved rep) index = Some c ->
        exists abstract, c = Api.Str abstract /\ well_spaced abstract).
Proof.
  split; [|split].
  - intros text. apply tidy_well_spaced, tidy_clean_text.
  - intros w delay index url abstract H.
    by apply tidy_well_spaced, (extract_abstract_tidy w delay index url).
  - intros w delay df url_column output_column tr rep index c Hrun Hc.
    assert (url_column ∈ Api.columns df) as Hcol.
    { unfold Api.process_csv in Hrun. by case_decide. }
    destruct (process_csv_saved w delay df url_column output_column tr rep
                Hcol Hrun) as (Hsaved & _).
    rewrite Hsaved in Hc.
    destruct (Api.rows df !! index) as [r|] eqn:Hr.
    + rewrite (result_at_processed _ _ _ _ _ _ r) in Hc by done.
      injection Hc as <-. eexists. split; [done|].
      apply tidy_well_spaced.
      destruct (<[output_column := Api.Str []]> r !! url_column) as [[|url|]|];
        try done.
      simpl. destruct (truthy (strip url)); [|done]. simpl.
      destruct (Api.extract_abstract w delay index url).2 eqn:Hex; [|done].
      by eapply extract_abstract_tidy.
    + unfold Api.result_at in Hc. simpl in Hc.
      by rewrite list_lookup_imap, list_lookup_fmap, Hr in Hc.
Qed.

(** * The field extractors: claims C4, C5 and C8 *)

Section Extractors.

Import Api.

Lemma scan_fields_accept field fields project_data abstract v :
  project_data !! field = Some v ->
  py_bool v = true ->
  50 < length (strip (py_str v)) ->
  scan_fields (field :: fields) project_data abstract = strip (py_str v).
Proof.
  intros Hv Hb Hlen. cbn [scan_fields]. rewrite Hv, Hb.
  by apply Nat.ltb_lt in Hlen as ->.
Qed.

Lemma scan_fields_pass field fields project_data abstract :
  match project_data !! field with
  | Some v => py_bool v = false
  | None => True
  end ->
  scan_fields (field :: fields) project_data abstract
  = scan_fields fields project_data abstract.
Proof.
  intros H. cbn [scan_fields]. destruct (project_data !! field); [|done].
  by rewrite H.
Qed.

(** The loop stops at the first field it accepts, whatever fields follow
    in the list. *)
Lemma scan_fields_first_accepted pre field post project_data abstract v :
  Forall (fun f => match project_data !! f with
                   | Some v => py_bool v = false
                   | None => True
                   end) pre ->
  project_data !! field = Some v ->
  py_bool v = true ->
  50 < length (strip (py_str v)) ->
  scan_fields (pre ++ field :: post) project_data abstract = strip (py_str v).
Proof.
  intros Hpre Hv Hb Hlen. induction Hpre as [|f pre Hf _ IH]; simpl app.
  - by apply scan_fields_accept.
  - by rewrite scan_fields_pass.
Qed.

Lemma truthy_length s : 0 < length s -> truthy s = true.
Proof. destruct s; simpl; [lia|done]. Qed.

End Extractors.

(** C4, at the failing input: a project whose only text, in the field
    [abstract], is [Short text].  The loop keeps the text in [abstract]
    though it is not over 50 characters, and [extract_abstract] returns
    it.  A text of 62 characters that the whitespace collapse shortens
    to three is returned too. *)
Lemma short_text_is_returned :
  (Api.extract_abstract Examples.short_world 0 0 Examples.url_P123456).2
  = Returned (py "Short text")
  /\ length (py "Short text") = 10
  /\ (Api.extract_abstract Examples.spaced_world 0 0 Examples.url_P123456).2
     = Returned (py "a b").
Proof. by vm_compute. Qed.

(** C5: when the field [project_abstract] holds a text whose stripped
    length is over 50, the loop stops there: the abstract is that text,
    cleaned, whatever the other fields of the document hold. *)
Theorem primary_field_wins (project_data : gmap str Api.pyval) (v : Api.pyval) :
  project_data !! py "project_abstract" = Some v ->
  Api.py_bool v = true ->
  50 < length (strip (Api.py_str v)) ->
  Api.scan_fields Api.abstract_fields project_data [] = strip (Api.py_str v)
  /\ forall (w : Api.world) (delay : Z) (index : nat) (url project_id : str),
       Api.extract_project_id url = Some project_id ->
       Api.get_project_data w index project_id
       = Some (Api.ProjectDict project_data) ->
       (0 <= delay)%Z ->
       (Api.extract_abstract w delay index url).2
       = Returned (_clean_text (strip (Api.py_str v))).
Proof.
  intros Hv Hb Hlen.
  assert (Api.scan_fields Api.abstract_fields project_data []
          = strip (Api.py_str v)) as Hscan.
  { by apply scan_fields_accept. }
  split; [done|].
  intros w delay index url project_id Hid Hget Hdelay.
  rewrite extract_abstract_outcome.
  apply Z.ltb_ge in Hdelay as ->.
  unfold Api.extract_abstract_body. rewrite Hid, Hget. cbn [snd].
  rewrite decide_False.
  - rewrite Hscan, truthy_length by lia. done.
  - intros ->. by rewrite lookup_empty in Hv.
Qed.

Section Strategies.

Lemma run_strategies_first pre result post :
  Forall strategy_misses pre ->
  truthy result && (50 <? length (strip result)) = true ->
  Simple.run_strategies (pre ++ Simple.Gives result :: post) = result.
Proof.
  intros Hpre Hres. induction Hpre as [|r pre Hr _ IH]; simpl.
  - by rewrite Hres.
  - destruct r as [|other]; [done|]. simpl in Hr. by rewrite Hr.
Qed.

Lemma read_elements_cons content elements abstract_text :
  Browser.read_elements (Some content :: elements) abstract_text
  = if truthy (strip content) && (50 <? length (strip content))
    then Browser.read_elements elements
           (abstract_text ++ strip content ++ py " ")
    else Browser.read_elements elements abstract_text.
Proof. reflexivity. Qed.

Lemma accepted_cons content contents :
  accepted (content :: contents)
  = if truthy (strip content) && (50 <? length (strip content))
    then strip content :: accepted contents
    else accepted contents.
Proof.
  unfold accepted. rewrite fmap_cons, filter_cons.
  destruct (truthy (strip content) && (50 <? length (strip content))) eqn:Hq.
  - by rewrite decide_True.
  - by rewrite decide_False.
Qed.

Lemma read_elements_all contents abstract_text :
  Browser.read_elements (Some <$> contents) abstract_text
  = (abstract_text ++ flat_map (fun text => text ++ py " ") (accepted contents),
     true).
Proof.
  revert abstract_text.
  induction contents as [|content contents IH]; intros abstract_text.
  - simpl. by rewrite app_nil_r.
  - rewrite fmap_cons, read_elements_cons, accepted_cons.
    destruct (truthy (strip content) && (50 <? length (strip content))).
    + rewrite IH. cbn [flat_map]. by rewrite <- !app_assoc.
    + apply IH.
Qed.

Lemma lstrip_head s c s' : lstrip s = c :: s' -> is_space c = false.
Proof.
  induction s as [|a s IH]; simpl; [done|].
  destruct (is_space a) eqn:Ha; [done|]. by intros [= <- _].
Qed.

Lemma rstrip_head c s r : rstrip (c :: s) = r -> r = [] \/ exists r', r = c :: r'.
Proof.
  simpl. destruct (rstrip s); [destruct (is_space c)|]; intros <-; eauto.
Qed.

Lemma strip_head s c s' : strip s = c :: s' -> is_space c = false.
Proof.
  unfold strip. destruct (lstrip s) as [|a l] eqn:Hl; [done|].
  intros H. destruct (rstrip_head a l _ H) as [?|[r' Hr]]; [done|].
  injection Hr as -> _. by eapply lstrip_head.
Qed.

Lemma strip_truthy c s : is_space c = false -> truthy (strip (c :: s)) = true.
Proof.
  intros Hc. unfold strip. simpl. rewrite Hc. simpl.
  destruct (rstrip s); [by rewrite Hc|done].
Qed.

Lemma accepted_truthy contents :
  accepted contents <> [] ->
  truthy (strip (flat_map (fun text => text ++ py " ") (accepted contents)))
  = true.
Proof.
  unfold accepted.
  destruct (filter _ _) as [|text texts] eqn:Hf; [done|]. intros _.
  assert (text ∈ filter (fun text => truthy text && (50 <? length text) = true)
                        (strip <$> contents)) as Hin.
  { rewrite Hf. by left. }
  apply list_elem_of_filter in Hin as [Hq Hin].
  apply list_elem_of_fmap in Hin as (content & -> & _).
  destruct (strip content) as [|c s] eqn:Hs; [done|].
  cbn [flat_map app]. apply strip_truthy. by eapply strip_head.
Qed.

(** A selector that adds nothing to the empty text lets the loop go on. *)
Lemma scan_selectors_skip p selector selectors :
  Browser.scan_selectors p [selector] [] = [] ->
  Browser.scan_selectors p (selector :: selectors) []
  = Browser.scan_selectors p selectors [].
Proof.
  cbn [Browser.scan_selectors].
  destruct (Browser.find_elements p selector) as [|[|e es]]; [done..|].
  destruct (Browser.show_more_button p); [| |done];
    destruct (Browser.read_elements (e :: es) []) as [a [|]];
    try (by intros ->);
    destruct (truthy (strip a)) eqn:Ha; try (by intros ->);
    intros ->; done.
Qed.

Lemma scan_selectors_first p pre selector post contents :
  Forall (fun sel => Browser.scan_selectors p [sel] [] = []) pre ->
  Browser.find_elements p selector = Browser.Elements (Some <$> contents) ->
  Browser.show_more_button p <> Browser.ButtonError ->
  accepted contents <> [] ->
  Browser.scan_selectors p (pre ++ selector :: post) []
  = flat_map (fun text => text ++ py " ") (accepted contents).
Proof.
  intros Hpre Hfind Hbutton Hacc.
  induction Hpre as [|sel pre Hsel _ IH]; simpl app.
  - cbn [Browser.scan_selectors]. rewrite Hfind.
    destruct contents as [|content contents]; [done|].
    rewrite fmap_cons. rewrite <- (fmap_cons Some content contents).
    rewrite read_elements_all. simpl app.
    rewrite accepted_truthy by done.
    by destruct (Browser.show_more_button p).
  - by rewrite scan_selectors_skip.
Qed.

End Strategies.

(** C8, refuted: on a page where the first selector of the browser
    scraper finds two paragraphs of more than 50 characters, the abstract
    is the two of them, joined; it changes with the second paragraph;
    it is not the first candidate alone. *)
Lemma browser_joins_all_elements :
  Browser.extract_abstract 0
    (Browser.Loaded (Examples.page_with Examples.second_paragraph))
  = Returned (Examples.first_paragraph ++ py " " ++ Examples.second_paragraph)
  /\ Browser.extract_abstract 0
       (Browser.Loaded (Examples.page_with Examples.other_paragraph))
     = Returned (Examples.first_paragraph ++ py " " ++ Examples.other_paragraph)
  /\ Browser.extract_abstract 0
       (Browser.Loaded (Examples.page_with Examples.second_paragraph))
     <> Returned Examples.first_paragraph.
Proof. vm_compute. repeat split; discriminate. Qed.

(** C8, amended.  In the static scraper the abstract text is the result
    of the first strategy, in the order of the list, whose result is
    over 50 characters once stripped; the strategies after it have no
    part in it.  In the browser scraper the first selector that finds
    an element of more than 50 characters ends the loop, and the
    selectors after it have no part; the text is made of all elements
    of that selector with more than 50 characters, each followed by a
    blank. *)
Theorem first_qualifying_strategy_wins :
  (forall (pre post : list Simple.strategy_result) (result : str),
     Forall strategy_misses pre ->
     truthy result && (50 <? length (strip result)) = true ->
     Simple.run_strategies (pre ++ Simple.Gives result :: post) = result)
  /\ (forall (p : Browser.page) (pre post : list str) (selector : str)
             (contents : list str),
        Forall (fun sel => Browser.scan_selectors p [sel] [] = []) pre ->
        Browser.find_elements p selector = Browser.Elements (Some <$> contents) ->
        Browser.show_more_button p <> Browser.ButtonError ->
        accepted contents <> [] ->
        Browser.scan_selectors p (pre ++ selector :: post) []
        = flat_map (fun text => text ++ py " ") (accepted contents)).
Proof.
  split.
  - intros. by apply run_strategies_first.
  - intros. by apply scan_selectors_first.
Qed.

(** * The theorems at concrete inputs *)

Lemma clean_text_idempotent_iff_witness :
  _clean_text (_clean_text (py "Abstract:  rural   roads"))
  = _clean_text (py "Abstract:  rural   roads").
Proof.
  apply (proj1 (clean_text_idempotent_iff (py "Abstract:  rural   roads"))).
  vm_compute. repeat constructor.
Defined.

Lemma clean_text_first_prefix_longest_witness :
  length (py "Project Abstract") <= length (py "Project Abstract:")
  /\ _clean_text (py "Project Abstract: Foo")
     = remove_prefixes (drop 4 prefixes_to_remove)
         (strip (drop (length (py "Project Abstract:"))
                      (collapse (py "Project Abstract: Foo")))).
Proof.
  pose proof (proj1 (clean_text_first_prefix_longest (py "Project Abstract: Foo")))
    as H.
  change (list_find _ prefixes_to_remove)
    with (Some (3, py "Project Abstract:")) in H.
  destruct H as [Hlongest Hrest]. split; [|exact Hrest].
  apply Hlongest.
  - vm_compute. do 4 right. by left.
  - vm_compute. reflexivity.
Defined.

Lemma clean_text_well_spaced_witness :
  well_spaced (_clean_text (py "  Abstract:  rural   roads "))
  /\ well_spaced Examples.health_text.
Proof.
  split.
  - apply (proj1 clean_text_well_spaced).
  - apply (proj1 (proj2 clean_text_well_spaced) Examples.all_answered 0%Z 1
             Examples.url_P123456).
    vm_compute. reflexivity.
Defined.

Lemma extract_project_id_spec_witness :
  exists pre ds rest,
    Examples.url_P123456 = pre ++ py "/project-detail/P" ++ ds ++ rest
    /\ py "P123456" = "P"%char :: ds
    /\ ds <> [] /\ Forall (fun d => is_digit d = true) ds
    /\ (forall d rest', rest = d :: rest' -> is_digit d = false)
    /\ (forall pre' d rest',
          Examples.url_P123456 = pre' ++ py "/project-detail/P" ++ d :: rest' ->
          is_digit d = true -> length pre <= length pre').
Proof.
  pose proof (extract_project_id_spec Examples.url_P123456) as H.
  change (Api.extract_project_id Examples.url_P123456)
    with (Some (py "P123456")) in H.
  exact H.
Defined.

Lemma primary_field_wins_witness :
  Api.scan_fields Api.abstract_fields Examples.two_field_project []
  = Examples.primary_text
  /\ (Api.extract_abstract Examples.two_field_world 0 0 Examples.url_P123456).2
     = Returned Examples.primary_text.
Proof.
  destruct (primary_field_wins Examples.two_field_project
              (Api.PStr Examples.primary_text)) as [Hscan Hrun].
  - vm_compute. reflexivity.
  - reflexivity.
  - vm_compute. lia.
  - split; [exact Hscan|].
    apply (Hrun Examples.two_field_world 0%Z 0 Examples.url_P123456
             (py "P123456")).
    + vm_compute. reflexivity.
    + vm_compute. reflexivity.
    + lia.
Defined.

Lemma first_qualifying_strategy_wins_witness :
  Simple.run_strategies (Simple.strategies Examples.third_strategy_page)
  = Examples.first_paragraph
  /\ Browser.scan_selectors (Examples.page_with Examples.second_paragraph)
       Browser.abstract_selectors []
     = (Examples.first_paragraph ++ py " ")
         ++ (Examples.second_paragraph ++ py " ").
Proof.
  destruct first_qualifying_strategy_wins as [Hsimple Hbrowser]. split.
  - apply (Hsimple [Simple.Gives (py "Abstract"); Simple.Raises]
             [Simple.Gives Examples.other_paragraph;
              Simple.Gives Examples.second_paragraph]
             Examples.first_paragraph).
    + repeat constructor.
    + vm_compute. reflexivity.
  - apply (Hbrowser (Examples.page_with Examples.second_paragraph) []
             (tail Browser.abstract_selectors)
             (py "//h2[contains(text(), 'Abstract')]/following-sibling::*")
             [Examples.first_paragraph; Examples.second_paragraph]).
    + constructor.
    + vm_compute. reflexivity.
    + discriminate.
    + vm_compute. discriminate.
Defined.

Lemma missing_column_fails_fast_witness :
  Api.process_csv Examples.all_answered 0 Examples.no_locator
    (py "Project URL") (py "Abstract")
  = ([], Raised (ValueError
       (py "Column 'Project URL' not found in CSV. Available columns: Name, Link")))
  /\ exists r, r ∈ Api.rows MoreExamples.with_number_locator
               /\ r !! py "Project URL" = Some Api.NonText.
Proof.
  split.
  - apply (proj1 (missing_column_fails_fast Examples.all_answered 0
                    Examples.no_locator (py "Project URL") (py "Abstract"))).
    vm_compute. intros H. repeat (apply elem_of_cons in H as [H|H]; [discriminate H|]).
    by apply elem_of_nil in H.
  - assert (Api.process_csv Examples.all_answered 0
              MoreExamples.with_number_locator (py "Project URL") (py "Abstract")
            = ([Api.Get 0 (py "P100001"); Api.Sleep 0;
                Api.SetAt 0 Examples.health_text],
               Raised AttributeError)) as Hrun.
    { vm_compute. reflexivity. }
    destruct (proj2 (missing_column_fails_fast Examples.all_answered 0
                       MoreExamples.with_number_locator (py "Project URL")
                       (py "Abstract")) _ _ Hrun)
      as [[_ Htr]|[(_ & _ & _ & Hr)|(_ & He & _)]].
    + discriminate Htr.
    + exact Hr.
    + discriminate He.
Defined.

Lemma output_column_overwritten_witness :
  Api.process_csv Examples.all_answered 0 Examples.with_other_results
    (py "Project URL") (py "Abstract")
  = Api.process_csv Examples.all_answered 0 Examples.with_old_results
      (py "Project URL") (py "Abstract")
  /\ exists tr rep,
       Api.process_csv Examples.all_answered 0 Examples.with_old_results
         (py "Project URL") (py "Abstract") = (tr, Returned rep)
       /\ Api.result_at (py "Abstract") (Api.saved rep) 0 = Some (Api.Str [])
       /\ Api.result_at (py "Abstract") (Api.saved rep) 1
          = Some (Api.Str Examples.health_text).
Proof.
  destruct (output_column_overwritten Examples.all_answered 0
              Examples.with_old_results (py "Project URL") (py "Abstract"))
    as [Hsame Hreturns].
  split.
  - apply Hsame; vm_compute; reflexivity.
  - destruct Hreturns as (tr & rep & Hrun & Hresult).
    + repeat constructor; eexists; vm_compute; reflexivity.
    + repeat constructor; vm_compute; discriminate.
    + vm_compute. by left.
    + exists tr, rep. split; [exact Hrun|]. split.
      * apply (proj2 (Hresult 0
                 {[ py "Project URL" := Api.NaN;
                    py "Abstract" := Api.Str (py "old") ]} eq_refl) Api.NaN).
        -- vm_compute. reflexivity.
        -- reflexivity.
      * rewrite (proj1 (Hresult 1
                   {[ py "Project URL" := Api.Str Examples.url_P123456;
                      py "Abstract" := Api.Str (py "older") ]} eq_refl)).
        vm_compute. reflexivity.
Defined.


(** * Beyond the claims: the API scraper *)

Section ApiFields.

Import Api.

Implicit Types (d : gmap str pyval) (v : pyval).

Lemma scan_fields_step field fields d abstract :
  scan_fields (field :: fields) d abstract
  = if accepts d field then
      match d !! field with Some v => strip (py_str v) | None => abstract end
    else scan_fields fields d
           (if has_value d field then
              match d !! field with Some v => strip (py_str v) | None => abstract end
            else abstract).
Proof.
  cbn [scan_fields]. unfold accepts, has_value.
  destruct (d !! field) as [v|]; [|done].
  destruct (py_bool v); [|done]. simpl.
  by destruct (50 <? length (strip (py_str v))).
Qed.

(** Fields that the loop does not accept are passed, each leaving its
    text in [abstract] when it has one. *)
Lemma scan_fields_app pre fields d abstract :
  Forall (fun g => accepts d g = false) pre ->
  scan_fields (pre ++ fields) d abstract
  = scan_fields fields d (scan_fields pre d abstract).
Proof.
  intros Hpre. revert abstract.
  induction Hpre as [|g pre Hg _ IH]; intros abstract; [done|].
  simpl app. rewrite !scan_fields_step, Hg. apply IH.
Qed.

Lemma scan_fields_no_value fields d abstract :
  Forall (fun g => has_value d g = false) fields ->
  scan_fields fields d abstract = abstract.
Proof.
  induction 1 as [|g fields Hg _ IH]; [done|].
  rewrite scan_fields_step, Hg.
  assert (accepts d g = false) as ->; [|done].
  unfold accepts, has_value in *. destruct (d !! g); [|done]. by rewrite Hg.
Qed.

Lemma scan_fields_agree fields d d' abstract :
  Forall (fun g => d !! g = d' !! g) fields ->
  scan_fields fields d abstract = scan_fields fields d' abstract.
Proof.
  intros H. revert abstract.
  induction H as [|g fields Hg _ IH]; intros abstract; [done|].
  cbn [scan_fields]. rewrite <- Hg.
  destruct (d !! g) as [v|]; [|apply IH].
  destruct (py_bool v); [|apply IH].
  destruct (50 <? length (strip (py_str v))); [done|apply IH].
Qed.

(** The abstract that [extract_abstract] draws from a dictionary of
    fields. *)
Lemma extract_abstract_of_dict w delay index url project_id d :
  extract_project_id url = Some project_id ->
  get_project_data w index project_id = Some (ProjectDict d) ->
  (0 <= delay)%Z ->
  (extract_abstract w delay index url).2
  = Returned (if truthy (scan_fields abstract_fields d [])
              then _clean_text (scan_fields abstract_fields d [])
              else []).
Proof.
  intros Hid Hget Hdelay. rewrite extract_abstract_outcome.
  apply Z.ltb_ge in Hdelay as ->.
  unfold extract_abstract_body. rewrite Hid, Hget. cbn [snd].
  case_decide as Hd; [|by destruct (truthy _)].
  subst d. rewrite scan_fields_no_value; [done|].
  apply Forall_forall. intros g _. unfold has_value. by rewrite lookup_empty.
Qed.

End ApiFields.

(** X1: the abstract depends on the six listed fields of the document and
    on nothing else in it: two documents that agree on those fields give
    the same loop result and the same call of [extract_abstract]. *)
Theorem unlisted_fields_are_ignored (d d' : gmap str Api.pyval) :
  (forall field, field ∈ Api.abstract_fields -> d !! field = d' !! field) ->
  Api.scan_fields Api.abstract_fields d [] = Api.scan_fields Api.abstract_fields d' []
  /\ forall (w w' : Api.world) (delay : Z) (index : nat) (url project_id : str),
       Api.extract_project_id url = Some project_id ->
       Api.get_project_data w index project_id = Some (Api.ProjectDict d) ->
       Api.get_project_data w' index project_id = Some (Api.ProjectDict d') ->
       Api.extract_abstract w' delay index url
       = Api.extract_abstract w delay index url.
Proof.
  intros Hagree.
  assert (Api.scan_fields Api.abstract_fields d []
          = Api.scan_fields Api.abstract_fields d' []) as Hscan.
  { apply scan_fields_agree, Forall_forall, Hagree. }
  split; [done|].
  intros w w' delay index url project_id Hid Hget Hget'.
  unfold Api.extract_abstract, Api.extract_abstract_body.
  rewrite Hid, Hget, Hget'.
  assert (forall x : gmap str Api.pyval,
            (if decide (x = ∅) then Returned []
             else if truthy (Api.scan_fields Api.abstract_fields x [])
                  then Returned (_clean_text (Api.scan_fields Api.abstract_fields x []))
                  else Returned [])
            = (if truthy (Api.scan_fields Api.abstract_fields x [])
               then Returned (_clean_text (Api.scan_fields Api.abstract_fields x []))
               else @Returned str [])) as Hempty.
  { intros x. case_decide as Hx; [|done]. subst x.
    rewrite scan_fields_no_value; [done|].
    apply Forall_forall. intros g _. unfold has_value. by rewrite lookup_empty. }
  cbv zeta. by rewrite !Hempty, Hscan.
Qed.

(** X2: field priority at every place of the list.  When the fields
    before a listed field are not accepted (absent, falsy, or not over
    50 characters) and that field is, the abstract is its text, cleaned,
    whatever the fields after it hold. *)
Theorem first_accepted_field_wins (d : gmap str Api.pyval)
    (pre post : list str) (field : str) (v : Api.pyval) :
  Api.abstract_fields = pre ++ field :: post ->
  Forall (fun g => accepts d g = false) pre ->
  d !! field = Some v ->
  accepts d field = true ->
  Api.scan_fields Api.abstract_fields d [] = strip (Api.py_str v)
  /\ forall (w : Api.world) (delay : Z) (index : nat) (url project_id : str),
       Api.extract_project_id url = Some project_id ->
       Api.get_project_data w index project_id = Some (Api.ProjectDict d) ->
       (0 <= delay)%Z ->
       (Api.extract_abstract w delay index url).2
       = Returned (_clean_text (strip (Api.py_str v))).
Proof.
  intros Hlist Hpre Hv Hacc.
  assert (Api.scan_fields Api.abstract_fields d [] = strip (Api.py_str v))
    as Hscan.
  { rewrite Hlist, scan_fields_app by done.
    by rewrite scan_fields_step, Hacc, Hv. }
  split; [done|].
  intros w delay index url project_id Hid Hget Hdelay.
  rewrite (extract_abstract_of_dict w delay index url project_id d) by done.
  rewrite Hscan. unfold accepts in Hacc. rewrite Hv in Hacc.
  apply andb_prop in Hacc as [_ Hlen%Nat.ltb_lt].
  by rewrite truthy_length by lia.
Qed.

(** X3: when no listed field is accepted, the loop ends with the text of
    the last listed field that holds a truthy value still in [abstract],
    and [extract_abstract] returns it, cleaned, though it is not over 50
    characters. *)
Theorem last_short_field_is_returned (d : gmap str Api.pyval)
    (pre post : list str) (field : str) (v : Api.pyval) :
  Api.abstract_fields = pre ++ field :: post ->
  Forall (fun g => accepts d g = false) pre ->
  d !! field = Some v ->
  Api.py_bool v = true ->
  length (strip (Api.py_str v)) <= 50 ->
  Forall (fun g => has_value d g = false) post ->
  Api.scan_fields Api.abstract_fields d [] = strip (Api.py_str v)
  /\ forall (w : Api.world) (delay : Z) (index : nat) (url project_id : str),
       Api.extract_project_id url = Some project_id ->
       Api.get_project_data w index project_id = Some (Api.ProjectDict d) ->
       (0 <= delay)%Z ->
       (Api.extract_abstract w delay index url).2
       = Returned (if truthy (strip (Api.py_str v))
                   then _clean_text (strip (Api.py_str v)) else []).
Proof.
  intros Hlist Hpre Hv Hb Hlen Hpost.
  assert (Api.scan_fields Api.abstract_fields d [] = strip (Api.py_str v))
    as Hscan.
  { rewrite Hlist, scan_fields_app by done.
    rewrite scan_fields_step.
    unfold accepts, has_value. rewrite Hv, Hb.
    apply Nat.ltb_ge in Hlen as ->. simpl.
    by apply scan_fields_no_value. }
  split; [done|].
  intros w delay index url project_id Hid Hget Hdelay.
  rewrite (extract_abstract_of_dict w delay index url project_id d) by done.
  by rewrite Hscan.
Qed.

(** X4: a document in which no listed field holds a truthy value gives
    the empty string, whatever else it holds. *)
Theorem no_listed_field_gives_empty (d : gmap str Api.pyval)
    (w : Api.world) (delay : Z) (index : nat) (url project_id : str) :
  Forall (fun g => has_value d g = false) Api.abstract_fields ->
  Api.extract_project_id url = Some project_id ->
  Api.get_project_data w index project_id = Some (Api.ProjectDict d) ->
  (0 <= delay)%Z ->
  (Api.extract_abstract w delay index url).2 = Returned [].
Proof.
  intros Hnone Hid Hget Hdelay.
  rewrite (extract_abstract_of_dict w delay index url project_id d) by done.
  by rewrite scan_fields_no_value.
Qed.

(** * Beyond the claims: the batch of the API scraper *)

Section BatchEffects.

Import Api.

Implicit Types (w : world) (delay : Z) (df : DataFrame) (r row : gmap str cell)
  (rs pending : list (gmap str cell)) (tr : list event).

Lemma extract_abstract_events w delay index url :
  (extract_abstract w delay index url).1
  = match extract_project_id url with
    | Some project_id => [Get index project_id]
    | None => []
    end ++ [Sleep delay].
Proof.
  unfold extract_abstract, extract_abstract_body.
  by destruct (extract_project_id url).
Qed.

Lemma imap_shift {A B} (F : nat -> A -> B) (index : nat) (l : list A) :
  imap ((fun j => F (index + j)) ∘ S) l = imap (fun j => F (S index + j)) l.
Proof. apply imap_ext. intros j r _. simpl. f_equal. lia. Qed.

(** One turn of the loop on a row whose locator can be read. *)
Lemma for_rows_step w delay url_column output_column index row pending rs tr :
  readable url_column row ->
  for_rows w delay url_column output_column index (row :: pending) rs tr
  = for_rows w delay url_column output_column (S index) pending
      match row !! url_column ≫= row_abstract w delay index with
      | Some abstract => set_at index output_column abstract rs
      | None => rs
      end
      (tr ++ row_events w delay url_column index row).
Proof.
  intros (c & Hc & Hne). cbn [for_rows]. unfold row_events. rewrite Hc.
  destruct c as [|url|]; [|simpl|done].
  - simpl. by rewrite app_nil_r.
  - destruct (truthy (strip url)); [|by rewrite app_nil_r].
    pose proof (extract_abstract_events w delay index url) as Hev.
    destruct (extract_abstract w delay index url) as [tr' [abstract|e]];
      simpl in Hev |- *; subst tr'; by rewrite <- !app_assoc.
Qed.

Lemma for_rows_stop w delay url_column output_column index row pending rs tr :
  ~ readable url_column row ->
  for_rows w delay url_column output_column index (row :: pending) rs tr
  = (tr, Raised match row !! url_column with
                | Some NonText => AttributeError
                | _ => KeyError url_column
                end).
Proof.
  intros Hbad. cbn [for_rows].
  destruct (row !! url_column) as [[|url|]|] eqn:Hrow; try done;
    destruct Hbad; eexists; split; done.
Qed.

(** The events of a loop that reads every row. *)
Lemma for_rows_events w delay url_column output_column pending :
  forall index rs tr,
    Forall (readable url_column) pending ->
    exists rs',
      for_rows w delay url_column output_column index pending rs tr
      = (tr ++ mjoin (imap (fun j => row_events w delay url_column (index + j))
                           pending),
         Returned rs').
Proof.
  induction pending as [|row pending IH]; intros index rs tr Hall.
  - exists rs. simpl. by rewrite app_nil_r.
  - apply Forall_cons in Hall as [Hrow Hall].
    rewrite for_rows_step by done.
    edestruct IH as [rs' ->]; [done|]. exists rs'.
    rewrite imap_cons. cbn [mjoin list_join].
    by rewrite Nat.add_0_r, <- app_assoc, imap_shift.
Qed.

(** The events of a loop that meets a row it cannot read. *)
Lemma for_rows_abort w delay url_column output_column pre bad post :
  forall index rs tr,
    Forall (readable url_column) pre ->
    ~ readable url_column bad ->
    for_rows w delay url_column output_column index (pre ++ bad :: post) rs tr
    = (tr ++ mjoin (imap (fun j => row_events w delay url_column (index + j)) pre),
       Raised match bad !! url_column with
              | Some NonText => AttributeError
              | _ => KeyError url_column
              end).
Proof.
  induction pre as [|row pre IH]; intros index rs tr Hall Hbad.
  - simpl app. rewrite for_rows_stop by done. simpl. by rewrite app_nil_r.
  - apply Forall_cons in Hall as [Hrow Hall]. rewrite <- app_comm_cons.
    rewrite for_rows_step by done. rewrite IH by done.
    rewrite imap_cons. cbn [mjoin list_join].
    by rewrite Nat.add_0_r, <- app_assoc, imap_shift.
Qed.

(** A loop that returns has read every row. *)
Lemma for_rows_returned_readable w delay url_column output_column pending :
  forall index rs tr tr' rs',
    for_rows w delay url_column output_column index pending rs tr
    = (tr', Returned rs') ->
    Forall (readable url_column) pending.
Proof.
  induction pending as [|row pending IH]; intros index rs tr tr' rs' H; [done|].
  destruct (row !! url_column) as [[|url|]|] eqn:Hrow.
  - assert (readable url_column row) as Hr by (eexists; split; done).
    rewrite for_rows_step in H by done. constructor; [done|]. by eapply IH.
  - assert (readable url_column row) as Hr by (eexists; split; done).
    rewrite for_rows_step in H by done. constructor; [done|]. by eapply IH.
  - cbn [for_rows] in H. by rewrite Hrow in H.
  - cbn [for_rows] in H. by rewrite Hrow in H.
Qed.

Lemma row_events_counts w delay url_column index row :
  length (filter (fun e => is_get e = true)
                 (row_events w delay url_column index row))
  <= length (filter (fun e => is_sleep e = true)
                    (row_events w delay url_column index row))
  /\ length (filter (fun e => is_sleep e = true)
                    (row_events w delay url_column index row))
     = length (filter (fun e => is_set_at e = true)
                      (row_events w delay url_column index row))
  /\ length (filter (fun e => is_sleep e = true)
                    (row_events w delay url_column index row)) <= 1.
Proof.
  unfold row_events.
  destruct (row !! url_column) as [[|url|]|]; try (simpl; lia).
  destruct (truthy (strip url)); [|simpl; lia].
  destruct (extract_project_id url); cbn [app];
    repeat (rewrite filter_cons_True by done
            || rewrite filter_cons_False by done);
    rewrite ?filter_nil; simpl; lia.
Qed.

Lemma rows_events_counts w delay url_column pending :
  forall index,
    let events := mjoin (imap (fun j => row_events w delay url_column (index + j))
                              pending) in
    length (filter (fun e => is_get e = true) events)
    <= length (filter (fun e => is_sleep e = true) events)
    /\ length (filter (fun e => is_sleep e = true) events)
       = length (filter (fun e => is_set_at e = true) events)
    /\ length (filter (fun e => is_sleep e = true) events) <= length pending.
Proof.
  induction pending as [|row pending IH]; intros index; [simpl; lia|].
  cbv zeta. rewrite imap_cons. cbn [mjoin list_join].
  rewrite !filter_app, !length_app.
  pose proof (row_events_counts w delay url_column (index + 0) row)
    as (H1 & H2 & H3).
  specialize (IH (S index)). cbv zeta in IH.
  rewrite imap_shift.
  destruct IH as (I1 & I2 & I3). cbn [Nat.add length] in *.
  split; [by apply Nat.add_le_mono|].
  split; [by f_equal|].
  change (S (length pending)) with (1 + length pending).
  by apply Nat.add_le_mono.
Qed.

End BatchEffects.

Section BatchRuns.

Import Api.

Implicit Types (w : world) (delay : Z) (df : DataFrame) (r row : gmap str cell)
  (rs pending : list (gmap str cell)) (tr : list event).

Lemma process_csv_has_column w delay df url_column output_column tr rep :
  process_csv w delay df url_column output_column = (tr, Returned rep) ->
  url_column ∈ columns df.
Proof. unfold process_csv. by case_decide. Qed.

Lemma process_csv_loop w delay df url_column output_column tr rep :
  process_csv w delay df url_column output_column = (tr, Returned rep) ->
  exists tr0,
    for_rows w delay url_column output_column 0
      (rows (set_column output_column df)) (rows (set_column output_column df)) []
    = (tr0, Returned (rows (saved rep)))
    /\ tr = tr0 ++ [ToCsv].
Proof.
  unfold process_csv. case_decide; [|done]. cbv zeta.
  destruct (for_rows _ _ _ _ _ _ _ _) as [tr0 [rs|e]]; [|done].
  intros [= <- <-]. by exists tr0.
Qed.

Lemma readable_init url_column output_column r :
  url_column <> output_column ->
  readable url_column (<[output_column := Str []]> r) <-> readable url_column r.
Proof.
  intros Hne. unfold readable. by rewrite lookup_insert_ne.
Qed.

Lemma row_events_no_save w delay url_column index row :
  ToCsv ∉ row_events w delay url_column index row.
Proof.
  unfold row_events.
  destruct (row !! url_column) as [[|url|]|]; try apply not_elem_of_nil.
  destruct (truthy (strip url)); [|apply not_elem_of_nil].
  destruct (extract_project_id url); simpl; intros H;
    repeat (apply elem_of_cons in H as [H|H]; [discriminate H|]);
    by apply elem_of_nil in H.
Qed.

Lemma rows_events_no_save w delay url_column pending :
  forall index,
    ToCsv ∉ mjoin (imap (fun j => row_events w delay url_column (index + j))
                        pending).
Proof.
  induction pending as [|row pending IH]; intros index.
  - apply not_elem_of_nil.
  - rewrite imap_cons. cbn [mjoin list_join]. rewrite elem_of_app, imap_shift.
    intros [H|H]; [by eapply row_events_no_save|by eapply IH].
Qed.

Lemma count_not_empty_zero output_column rs :
  Forall (fun r => r !! output_column = Some (Str [])) rs ->
  count_not_empty output_column rs = 0.
Proof.
  unfold count_not_empty. induction 1 as [|r rs Hr _ IH]; [done|].
  rewrite filter_cons_False; [done|]. unfold not_empty. by rewrite Hr.
Qed.

(** A loop over rows whose locators are all missing or blank writes
    nothing and asks nothing. *)
Lemma for_rows_all_skipped w delay url_column output_column pending :
  forall index rs tr,
    Forall (fun r => exists c, r !! url_column = Some c
                               /\ blank_locator c = true) pending ->
    for_rows w delay url_column output_column index pending rs tr
    = (tr, Returned rs).
Proof.
  induction pending as [|row pending IH]; intros index rs tr Hall; [done|].
  apply Forall_cons in Hall as [(c & Hc & Hblank) Hall].
  cbn [for_rows]. rewrite Hc. destruct c as [|url|]; [by apply IH| |done].
  simpl in Hblank. apply negb_true_iff in Hblank as ->. by apply IH.
Qed.

End BatchRuns.

(** X5: the effects of a run that returns, in their order.  Row by row
    in the order of the table: nothing for a row that is skipped; for any
    other row at most one request (none when no project id is resolved
    from the locator), then one sleep, then one write of the row's
    result; after the last row, one save.  So a run makes at most as
    many requests as it sleeps, and sleeps as often as it writes a
    result, at most once per row. *)
Theorem process_csv_effects (w : Api.world) (delay : Z) (df : Api.DataFrame)
    (url_column output_column : str) (tr : list Api.event) (rep : Api.report) :
  Api.process_csv w delay df url_column output_column = (tr, Returned rep) ->
  tr = mjoin (imap (row_events w delay url_column)
                   (Api.rows (Api.set_column output_column df)))
       ++ [Api.ToCsv]
  /\ length (filter (fun e => is_get e = true) tr)
     <= length (filter (fun e => is_sleep e = true) tr)
  /\ length (filter (fun e => is_sleep e = true) tr)
     = length (filter (fun e => is_set_at e = true) tr)
  /\ length (filter (fun e => is_sleep e = true) tr) <= length (Api.rows df).
Proof.
  intros Hrun.
  destruct (process_csv_loop _ _ _ _ _ _ _ Hrun) as (tr0 & Hloop & ->).
  pose proof (for_rows_returned_readable _ _ _ _ _ _ _ _ _ _ Hloop) as Hall.
  destruct (for_rows_events w delay url_column output_column _ 0
              (Api.rows (Api.set_column output_column df)) [] Hall)
    as (rs' & Hev).
  rewrite Hev in Hloop. injection Hloop as <- _. simpl app.
  split; [done|].
  pose proof (rows_events_counts w delay url_column
                (Api.rows (Api.set_column output_column df)) 0) as Hc.
  cbv zeta in Hc. simpl Nat.add in Hc. destruct Hc as (H1 & H2 & H3).
  rewrite !filter_app, !length_app.
  rewrite (filter_cons_False _ Api.ToCsv) by done.
  rewrite (filter_cons_False _ Api.ToCsv) by done.
  rewrite (filter_cons_False _ Api.ToCsv) by done.
  rewrite !filter_nil. simpl length. rewrite !Nat.add_0_r.
  split; [done|]. split; [done|].
  simpl in H3. by rewrite length_fmap in H3.
Qed.

(** X6: a locator cell that holds neither text nor a missing value ends
    the run.  When the rows before it can be read, [process_csv] raises
    [AttributeError] at that row, having made the requests and sleeps of
    the rows before it; nothing is saved. *)
Theorem non_text_locator_aborts (w : Api.world) (delay : Z) (df : Api.DataFrame)
    (url_column output_column : str)
    (pre post : list (gmap str Api.cell)) (bad : gmap str Api.cell) :
  url_column ∈ Api.columns df ->
  url_column <> output_column ->
  Api.rows df = pre ++ bad :: post ->
  Forall (readable url_column) pre ->
  bad !! url_column = Some Api.NonText ->
  exists tr,
    Api.process_csv w delay df url_column output_column
    = (tr, Raised AttributeError)
    /\ tr = mjoin (imap (row_events w delay url_column)
                        ((fun r : gmap str Api.cell =>
                            <[output_column := Api.Str []]> r) <$> pre))
    /\ Api.ToCsv ∉ tr.
Proof.
  intros Hcol Hne Hrows Hpre Hbad.
  eexists. split; [|split; [reflexivity|]].
  - unfold Api.process_csv. rewrite decide_True by done. cbv zeta.
    unfold Api.set_column at 1 2. cbn [Api.rows]. rewrite Hrows.
    rewrite fmap_app, fmap_cons.
    rewrite for_rows_abort.
    + rewrite lookup_insert_ne, Hbad by done. done.
    + apply Forall_fmap. eapply Forall_impl; [exact Hpre|].
      intros r Hr. simpl. by apply readable_init.
    + intros Hr. apply readable_init in Hr; [|done].
      destruct Hr as (c & Hc & Hnt). congruence.
  - apply (rows_events_no_save w delay url_column _ 0).
Qed.

(** X7: with one name for the locator column and the result column, the
    locators are overwritten before the loop reads them: every row is
    skipped, no request is made, every result is empty and the count of
    successful extractions is zero. *)
Theorem same_column_skips_every_row (w : Api.world) (delay : Z)
    (df : Api.DataFrame) (column : str) :
  column ∈ Api.columns df ->
  Api.process_csv w delay df column column
  = ([Api.ToCsv],
     Returned {| Api.saved := Api.set_column column df;
                 Api.successful_extractions := 0;
                 Api.total_urls := length (Api.rows df) |}).
Proof.
  intros Hcol. unfold Api.process_csv. rewrite decide_True by done. cbv zeta.
  assert (Forall (fun r : gmap str Api.cell => r !! column = Some (Api.Str []))
                 (Api.rows (Api.set_column column df))) as Hall.
  { unfold Api.set_column. cbn [Api.rows]. apply Forall_fmap, Forall_forall.
    intros r _. simpl. by rewrite lookup_insert_eq. }
  rewrite for_rows_all_skipped.
  - rewrite count_not_empty_zero by done.
    unfold Api.set_column at 3. cbn [Api.rows]. rewrite length_fmap.
    by destruct (Api.set_column column df).
  - eapply Forall_impl; [exact Hall|]. intros r Hr. by exists (Api.Str []).
Qed.

(** X8: with a negative delay the sleep of the [finally] clause raises in
    every call of [extract_abstract], after the request was made; the
    run still returns, every result is the empty string and the count of
    successful extractions is zero. *)
Theorem negative_delay_empties_every_result (w : Api.world) (delay : Z)
    (df : Api.DataFrame) (url_column output_column : str)
    (tr : list Api.event) (rep : Api.report) :
  (delay < 0)%Z ->
  Api.process_csv w delay df url_column output_column = (tr, Returned rep) ->
  (forall index url, exists e,
      (Api.extract_abstract w delay index url).2 = Raised e)
  /\ (forall index c,
        Api.result_at output_column (Api.saved rep) index = Some c ->
        c = Api.Str [])
  /\ Api.successful_extractions rep = 0.
Proof.
  intros Hneg Hrun.
  assert (forall index url, exists e,
            (Api.extract_abstract w delay index url).2 = Raised e) as Hraise.
  { intros index url. rewrite extract_abstract_outcome.
    apply Z.ltb_lt in Hneg as ->. by eexists. }
  pose proof (process_csv_has_column _ _ _ _ _ _ _ Hrun) as Hcol.
  destruct (process_csv_saved w delay df url_column output_column tr rep
              Hcol Hrun) as (Hsaved & Hcount & _).
  assert (forall index r,
            Api.rows df !! index = Some r ->
            Api.result_at output_column (Api.saved rep) index
            = Some (Api.Str [])) as Hres.
  { intros index r Hr.
    rewrite Hsaved, (result_at_processed _ _ _ _ _ _ r) by done.
    do 2 f_equal.
    destruct (<[output_column := Api.Str []]> r !! url_column) as [[|url|]|];
      try done.
    simpl. destruct (truthy (strip url)); [|done]. simpl.
    destruct (Hraise index url) as [e ->]. done. }
  split; [done|]. split.
  - intros index c Hc.
    destruct (Api.rows df !! index) as [r|] eqn:Hr.
    + rewrite (Hres index r Hr) in Hc. by injection Hc as <-.
    + rewrite Hsaved in Hc. unfold Api.result_at in Hc. simpl in Hc.
      by rewrite list_lookup_imap, list_lookup_fmap, Hr in Hc.
  - rewrite Hcount. apply count_not_empty_zero.
    apply Forall_lookup. intros index r' Hr'.
    assert (is_Some (Api.rows df !! index)) as [r Hr].
    { apply lookup_lt_is_Some. apply lookup_lt_Some in Hr'.
      rewrite Hsaved in Hr'. simpl in Hr'.
      by rewrite length_imap, length_fmap in Hr'. }
    specialize (Hres index r Hr). unfold Api.result_at in Hres.
    by rewrite Hr' in Hres.
Qed.

(** X9: what a run leaves of the table.  The saved frame has the columns
    of the input in their order, with the result column added at the end
    when the input had none of that name; it has the rows of the input in
    their order, each with every cell but the result as it was; every
    row has a cell in every column if that held of the input; and the
    count of successful extractions is at most the number of rows. *)
Theorem saved_frame_keeps_the_table (w : Api.world) (delay : Z)
    (df : Api.DataFrame) (url_column output_column : str)
    (tr : list Api.event) (rep : Api.report) :
  Api.process_csv w delay df url_column output_column = (tr, Returned rep) ->
  Api.columns (Api.saved rep)
  = (if decide (output_column ∈ Api.columns df) then Api.columns df
     else Api.columns df ++ [output_column])
  /\ length (Api.rows (Api.saved rep)) = length (Api.rows df)
  /\ (forall i r, Api.rows df !! i = Some r ->
        exists r', Api.rows (Api.saved rep) !! i = Some r'
                   /\ forall c, c <> output_column -> r' !! c = r !! c)
  /\ (Api.frame_ok df -> Api.frame_ok (Api.saved rep))
  /\ Api.successful_extractions rep <= Api.total_urls rep
  /\ Api.total_urls rep = length (Api.rows df).
Proof.
  intros Hrun.
  pose proof (process_csv_has_column _ _ _ _ _ _ _ Hrun) as Hcol.
  destruct (process_csv_saved w delay df url_column output_column tr rep
              Hcol Hrun) as (Hsaved & Hcount & Htotal).
  assert (length (Api.rows (Api.saved rep)) = length (Api.rows df)) as Hlen.
  { rewrite Hsaved. simpl. by rewrite length_imap, length_fmap. }
  split; [by rewrite Hsaved|]. split; [done|]. split; [|split; [|split]].
  - intros i r Hi. rewrite Hsaved. simpl.
    rewrite list_lookup_imap, list_lookup_fmap, Hi. simpl.
    eexists. split; [done|]. intros c Hc. by apply other_fields_kept.
  - intros Hok. unfold Api.frame_ok. rewrite Hsaved. simpl.
    apply Forall_lookup. intros i r' Hr'.
    rewrite list_lookup_imap, list_lookup_fmap in Hr'.
    destruct (Api.rows df !! i) as [r|] eqn:Hr; [|done].
    simpl in Hr'. injection Hr' as <-.
    unfold Api.frame_ok in Hok. rewrite Forall_lookup in Hok.
    specialize (Hok i r Hr). rewrite Forall_forall in Hok.
    apply Forall_forall. intros c Hc.
    destruct (decide (c = output_column)) as [->|Hne].
    + unfold Api.processed_row.
      destruct (_ ≫= _); rewrite !lookup_insert_eq; by eexists.
    + rewrite other_fields_kept by done. apply Hok.
      case_decide; [done|].
      apply elem_of_app in Hc as [Hc|Hc]; [done|].
      apply list_elem_of_singleton in Hc. done.
  - rewrite Hcount, Htotal, <- Hlen. unfold Api.count_not_empty.
    apply length_filter.
  - done.
Qed.

(** X10: a row's result does not depend on the rows after it.  When
    the runs on two frames with the same columns and the same first [n]
    rows return, the first [n] rows that they save are the same. *)
Theorem later_rows_leave_earlier_results (w : Api.world) (delay : Z)
    (df df' : Api.DataFrame) (url_column output_column : str) (n : nat)
    (tr tr' : list Api.event) (rep rep' : Api.report) :
  Api.columns df' = Api.columns df ->
  take n (Api.rows df') = take n (Api.rows df) ->
  Api.process_csv w delay df url_column output_column = (tr, Returned rep) ->
  Api.process_csv w delay df' url_column output_column = (tr', Returned rep') ->
  take n (Api.rows (Api.saved rep')) = take n (Api.rows (Api.saved rep))
  /\ forall index, index < n ->
       Api.result_at output_column (Api.saved rep') index
       = Api.result_at output_column (Api.saved rep) index.
Proof.
  intros Hcols Htake Hrun Hrun'.
  pose proof (process_csv_has_column _ _ _ _ _ _ _ Hrun) as Hcol.
  pose proof (process_csv_has_column _ _ _ _ _ _ _ Hrun') as Hcol'.
  destruct (process_csv_saved w delay df url_column output_column tr rep
              Hcol Hrun) as (Hsaved & _).
  destruct (process_csv_saved w delay df' url_column output_column tr' rep'
              Hcol' Hrun') as (Hsaved' & _).
  assert (forall i, i < n ->
            Api.rows (Api.saved rep') !! i = Api.rows (Api.saved rep) !! i)
    as Hsame.
  { intros i Hi. rewrite Hsaved', Hsaved. simpl.
    rewrite !list_lookup_imap, !list_lookup_fmap.
    apply (f_equal (fun l => l !! i)) in Htake. rewrite !lookup_take in Htake.
    rewrite !decide_True in Htake by done. by rewrite Htake. }
  split.
  - apply list_eq. intros i. rewrite !lookup_take.
    case_decide; [by apply Hsame|done].
  - intros index Hindex. unfold Api.result_at. by rewrite Hsame.
Qed.

(** * Beyond the claims: the batch of the other two scrapers *)

Section GenericBatch.

Import Api.

Variable extract : Batch.extractor.
Variables url_column output_column : str.

Implicit Types (df : DataFrame) (r row : gmap str cell)
  (rs pending done : list (gmap str cell)).

Lemma batch_for_rows_shape pending :
  forall index done,
    length done = index ->
    match Batch.for_rows extract url_column output_column index pending
                         (done ++ pending) with
    | Returned rs =>
        rs = done ++ imap (fun j => Batch.processed_row extract url_column
                                      output_column (index + j)) pending
    | Raised _ =>
        Exists (fun r => r !! url_column = None \/ r !! url_column = Some NonText)
               pending
    end.
Proof.
  induction pending as [|row pending IH]; intros index done <-.
  - simpl. by rewrite app_nil_r.
  - assert (forall r',
      r' = Batch.processed_row extract url_column output_column
             (length done + 0) row ->
      match Batch.for_rows extract url_column output_column (S (length done))
                           pending (done ++ r' :: pending) with
      | Returned rs =>
          rs = done ++ imap (fun j => Batch.processed_row extract url_column
                                        output_column (length done + j))
                            (row :: pending)
      | Raised _ =>
          Exists (fun r => r !! url_column = None \/ r !! url_column = Some NonText)
                 (row :: pending)
      end) as Hnext.
    { intros r' ->.
      specialize (IH (S (length done))
                     (done ++ [Batch.processed_row extract url_column
                                 output_column (length done + 0) row])).
      rewrite length_app, <- app_assoc in IH. simpl in IH.
      specialize (IH ltac:(lia)).
      destruct (Batch.for_rows _ _ _ _ _ _) as [rs|e].
      - rewrite IH, <- app_assoc, imap_cons. simpl. by rewrite imap_shift.
      - by apply Exists_cons_tl. }
    cbn [Batch.for_rows].
    destruct (row !! url_column) as [[|url|]|] eqn:Hrow.
    + apply Hnext. unfold Batch.processed_row. by rewrite Hrow.
    + destruct (truthy (strip url)) eqn:Hurl.
      * destruct (extract (length done) url) as [abstract|e] eqn:Hex;
          rewrite set_at_middle; apply Hnext;
          unfold Batch.processed_row; rewrite Hrow; simpl;
          by rewrite Hurl, Nat.add_0_r, Hex.
      * apply Hnext. unfold Batch.processed_row. rewrite Hrow. simpl.
        by rewrite Hurl.
    + apply Exists_cons_hd. by right.
    + apply Exists_cons_hd. by left.
Qed.

Lemma batch_process_csv_shape df :
  url_column ∈ columns df ->
  match Batch.process_csv extract df url_column output_column with
  | Returned rep =>
      saved rep
      = {| columns := columns (set_column output_column df);
           rows := imap (Batch.processed_row extract url_column output_column)
                        (rows (set_column output_column df)) |}
      /\ successful_extractions rep
         = count_not_empty output_column (rows (saved rep))
      /\ total_urls rep = length (rows df)
  | Raised _ =>
      Exists (fun r => r !! url_column = None \/ r !! url_column = Some NonText)
             (rows (set_column output_column df))
  end.
Proof.
  intros Hcol. unfold Batch.process_csv. rewrite decide_True by done.
  pose proof (batch_for_rows_shape (rows (set_column output_column df)) 0 []
                eq_refl) as H.
  simpl app in H. cbv zeta.
  destruct (Batch.for_rows _ _ _ _ _ _) as [rs|e]; simpl in H |- *.
  - subst rs. repeat split. by rewrite length_fmap.
  - done.
Qed.

Lemma batch_process_csv_returns df :
  frame_ok df -> text_column url_column df -> url_column ∈ columns df ->
  exists rep,
    Batch.process_csv extract df url_column output_column = Returned rep
    /\ saved rep
       = {| columns := columns (set_column output_column df);
            rows := imap (Batch.processed_row extract url_column output_column)
                         (rows (set_column output_column df)) |}
    /\ successful_extractions rep
       = count_not_empty output_column (rows (saved rep))
    /\ total_urls rep = length (rows df).
Proof.
  intros Hok Htext Hcol.
  pose proof (batch_process_csv_shape df Hcol) as H.
  destruct (Batch.process_csv _ _ _ _) as [rep|e]; [by eauto|exfalso].
  apply Exists_exists in H as (r' & Hin & Hbad).
  apply list_elem_of_fmap in Hin as (r & -> & Hin).
  unfold frame_ok in Hok. rewrite Forall_forall in Hok.
  unfold text_column in Htext. rewrite Forall_forall in Htext.
  specialize (Hok r Hin). rewrite Forall_forall in Hok.
  destruct (Hok url_column Hcol) as [c Hc]. specialize (Htext r Hin).
  destruct (decide (url_column = output_column)) as [->|Hne].
  - rewrite lookup_insert_eq in Hbad. by destruct Hbad.
  - rewrite lookup_insert_ne in Hbad by done. destruct Hbad; congruence.
Qed.

Lemma batch_result_at df index r :
  rows df !! index = Some r ->
  result_at output_column
    {| columns := columns (set_column output_column df);
       rows := imap (Batch.processed_row extract url_column output_column)
                    (rows (set_column output_column df)) |} index
  = Some (Str (default []
       (<[output_column := Str []]> r !! url_column
          ≫= Batch.row_abstract extract index))).
Proof.
  intros Hr. unfold result_at. simpl.
  rewrite list_lookup_imap, list_lookup_fmap, Hr. simpl.
  unfold Batch.processed_row.
  destruct (_ ≫= _) as [abstract|]; simpl; by rewrite lookup_insert_eq.
Qed.

End GenericBatch.

(** The loop of the API scraper is the loop of [Batch] with the
    [extract_abstract] of the API scraper. *)
Lemma api_for_rows_is_batch (w : Api.world) (delay : Z)
    (url_column output_column : str) (pending : list (gmap str Api.cell)) :
  forall index rs tr,
    (Api.for_rows w delay url_column output_column index pending rs tr).2
    = Batch.for_rows (fun i url => (Api.extract_abstract w delay i url).2)
        url_column output_column index pending rs.
Proof.
  induction pending as [|row pending IH]; intros index rs tr; [done|].
  cbn [Api.for_rows Batch.for_rows].
  destruct (row !! url_column) as [[|url|]|]; try done.
  destruct (truthy (strip url)); [|done].
  by destruct (Api.extract_abstract w delay index url) as [tr' [abstract|e]].
Qed.

Lemma api_process_csv_is_batch (w : Api.world) (delay : Z) (df : Api.DataFrame)
    (url_column output_column : str) :
  (Api.process_csv w delay df url_column output_column).2
  = Batch.process_csv (fun i url => (Api.extract_abstract w delay i url).2)
      df url_column output_column.
Proof.
  unfold Api.process_csv, Batch.process_csv. case_decide; [|done]. cbv zeta.
  rewrite <- (api_for_rows_is_batch w delay url_column output_column _ 0 _ []).
  by destruct (Api.for_rows _ _ _ _ _ _ _ _) as [tr [rs|e]].
Qed.

Section OtherBatches.

Import Api.

(** Containment, for any [extract_abstract]: on a frame with a text
    locator column the run returns; a row on which the extractor gives
    the empty string or raises ends empty; and the rows on which two
    extractors agree end alike. *)
Lemma batch_containment_for (extract : Batch.extractor) (df : DataFrame)
    (url_column output_column : str) (k : nat) (row_k : gmap str cell)
    (url_k : str) :
  frame_ok df -> text_column url_column df -> url_column ∈ columns df ->
  rows df !! k = Some row_k ->
  row_k !! url_column = Some (Str url_k) ->
  match extract k url_k with Returned abstract => abstract = [] | Raised _ => True end ->
  exists rep,
    Batch.process_csv extract df url_column output_column = Returned rep
    /\ length (rows (saved rep)) = length (rows df)
    /\ result_at output_column (saved rep) k = Some (Str [])
    /\ forall extract' : Batch.extractor,
         (forall j url, j <> k -> extract' j url = extract j url) ->
         exists rep',
           Batch.process_csv extract' df url_column output_column = Returned rep'
           /\ forall j, j <> k ->
                result_at output_column (saved rep') j
                = result_at output_column (saved rep) j.
Proof.
  intros Hok Htext Hcol Hk Hurl Hfail.
  destruct (batch_process_csv_returns extract url_column output_column df
              Hok Htext Hcol) as (rep & Hrun & Hsaved & _).
  exists rep. split; [done|]. split; [|split].
  - rewrite Hsaved. simpl. by rewrite length_imap, length_fmap.
  - rewrite Hsaved, (batch_result_at _ _ _ _ _ row_k) by done.
    do 2 f_equal.
    destruct (decide (url_column = output_column)) as [->|Hne].
    + by rewrite lookup_insert_eq.
    + rewrite lookup_insert_ne, Hurl by done. simpl.
      destruct (truthy (strip url_k)); [|done]. simpl.
      by destruct (extract k url_k).
  - intros extract' Hagree.
    destruct (batch_process_csv_returns extract' url_column output_column df
                Hok Htext Hcol) as (rep' & Hrun' & Hsaved' & _).
    exists rep'. split; [done|]. intros j Hj. rewrite Hsaved, Hsaved'.
    destruct (rows df !! j) as [r|] eqn:Hrj.
    + rewrite !(batch_result_at _ _ _ _ _ r) by done. do 3 f_equal.
      destruct (<[output_column := Str []]> r !! url_column) as [[|url|]|];
        try done.
      simpl. by rewrite Hagree.
    + unfold result_at. simpl.
      by rewrite !list_lookup_imap, !list_lookup_fmap, Hrj.
Qed.

End OtherBatches.

(** X11: batch containment in the static scraper.  On a frame with a
    text locator column [process_csv] returns as many rows as it read;
    a row whose page cannot be fetched ends with an empty result; and
    with other pages for that row only, every other row ends as
    before. *)
Theorem simple_batch_containment (w : SimpleRun.pages) (delay : Z)
    (df : Api.DataFrame) (url_column output_column : str) (k : nat)
    (row_k : gmap str Api.cell) (url_k : str) :
  Api.frame_ok df -> Api.text_column url_column df ->
  url_column ∈ Api.columns df ->
  Api.rows df !! k = Some row_k ->
  row_k !! url_column = Some (Api.Str url_k) ->
  w k url_k = Simple.RequestFailed ->
  exists rep,
    SimpleRun.process_csv w delay df url_column output_column = Returned rep
    /\ length (Api.rows (Api.saved rep)) = length (Api.rows df)
    /\ Api.result_at output_column (Api.saved rep) k = Some (Api.Str [])
    /\ forall w' : SimpleRun.pages,
         (forall j url, j <> k -> w' j url = w j url) ->
         exists rep',
           SimpleRun.process_csv w' delay df url_column output_column
           = Returned rep'
           /\ forall j, j <> k ->
                Api.result_at output_column (Api.saved rep') j
                = Api.result_at output_column (Api.saved rep) j.
Proof.
  intros Hok Htext Hcol Hk Hurl Hfail.
  destruct (batch_containment_for
              (fun index url => Simple.extract_abstract delay (w index url))
              df url_column output_column k row_k url_k Hok Htext Hcol Hk Hurl)
    as (rep & Hrun & Hlen & Hres & Hothers).
  { rewrite Hfail. unfold Simple.extract_abstract. by destruct (delay <? 0)%Z. }
  exists rep. split; [done|]. split; [done|]. split; [done|].
  intros w' Hw'.
  apply (Hothers (fun index url => Simple.extract_abstract delay (w' index url))).
  intros j url Hj. by rewrite Hw'.
Qed.

(** X12: batch containment in the browser scraper, in the same words,
    for a row whose page does not load. *)
Theorem browser_batch_containment (w : BrowserRun.pages) (delay : Z)
    (df : Api.DataFrame) (url_column output_column : str) (k : nat)
    (row_k : gmap str Api.cell) (url_k : str) :
  Api.frame_ok df -> Api.text_column url_column df ->
  url_column ∈ Api.columns df ->
  Api.rows df !! k = Some row_k ->
  row_k !! url_column = Some (Api.Str url_k) ->
  w k url_k = Browser.LoadFailed ->
  exists rep,
    BrowserRun.process_csv w delay df url_column output_column = Returned rep
    /\ length (Api.rows (Api.saved rep)) = length (Api.rows df)
    /\ Api.result_at output_column (Api.saved rep) k = Some (Api.Str [])
    /\ forall w' : BrowserRun.pages,
         (forall j url, j <> k -> w' j url = w j url) ->
         exists rep',
           BrowserRun.process_csv w' delay df url_column output_column
           = Returned rep'
           /\ forall j, j <> k ->
                Api.result_at output_column (Api.saved rep') j
                = Api.result_at output_column (Api.saved rep) j.
Proof.
  intros Hok Htext Hcol Hk Hurl Hfail.
  destruct (batch_containment_for
              (fun index url => Browser.extract_abstract delay (w index url))
              df url_column output_column k row_k url_k Hok Htext Hcol Hk Hurl)
    as (rep & Hrun & Hlen & Hres & Hothers).
  { rewrite Hfail. unfold Browser.extract_abstract. by destruct (delay <? 0)%Z. }
  exists rep. split; [done|]. split; [done|]. split; [done|].
  intros w' Hw'.
  apply (Hothers (fun index url => Browser.extract_abstract delay (w' index url))).
  intros j url Hj. by rewrite Hw'.
Qed.

(** * Beyond the claims: the static and the browser scraper *)

Section StripFacts.

Implicit Types (s t : str) (c : ascii).

Lemma rstrip_cons c s :
  rstrip (c :: s)
  = match rstrip s with
    | [] => if is_space c then [] else [c]
    | r => c :: r
    end.
Proof. reflexivity. Qed.

Lemma rstrip_idempotent s : rstrip (rstrip s) = rstrip s.
Proof.
  induction s as [|c s IH]; [done|]. rewrite rstrip_cons.
  destruct (rstrip s) as [|d r] eqn:Hr.
  - destruct (is_space c) eqn:Hc; [done|]. simpl. by rewrite Hc.
  - by rewrite rstrip_cons, IH.
Qed.

Lemma lstrip_nonspace c s : is_space c = false -> lstrip (c :: s) = c :: s.
Proof. intros Hc. simpl. by rewrite Hc. Qed.

Lemma strip_idempotent s : strip (strip s) = strip s.
Proof.
  unfold strip. destruct (rstrip (lstrip s)) as [|c r] eqn:Hr; [done|].
  assert (is_space c = false) as Hc.
  { apply (strip_head s c r). by unfold strip. }
  rewrite lstrip_nonspace by done. by rewrite <- Hr, rstrip_idempotent.
Qed.

Lemma truthy_nonempty s : truthy s = true <-> s <> [].
Proof. by destruct s. Qed.

End StripFacts.

Section StaticScraper.

Lemma run_strategies_result results :
  Simple.run_strategies results = []
  \/ (Simple.Gives (Simple.run_strategies results) ∈ results
      /\ 50 < length (strip (Simple.run_strategies results))).
Proof.
  induction results as [|[|result] results IH]; [by left|..].
  - simpl. destruct IH as [IH|[IH1 IH2]]; [by left|right].
    split; [by right|done].
  - simpl. destruct (truthy result && (50 <? length (strip result))) eqn:Hq.
    + right. apply andb_prop in Hq as [_ Hlen%Nat.ltb_lt].
      split; [by left|done].
    + destruct IH as [IH|[IH1 IH2]]; [by left|right].
      split; [by right|done].
Qed.

End StaticScraper.

(** X13: the static scraper accepts no short text.  The text that the
    loop over the strategies leaves is empty, or it is the result of one
    of the strategies and over 50 characters long once stripped; so the
    abstract is empty or the cleaned result of such a strategy.  A page
    that cannot be fetched gives the empty string. *)
Theorem simple_accepts_no_short_text (delay : Z) (page : Simple.soup)
    (abstract : str) :
  Simple.extract_abstract delay (Simple.Parsed page) = Returned abstract ->
  (abstract = []
   \/ exists result,
        Simple.Gives result ∈ Simple.strategies page
        /\ 50 < length (strip result)
        /\ abstract = simple_clean_text result)
  /\ (forall abstract',
        Simple.extract_abstract delay Simple.RequestFailed = Returned abstract' ->
        abstract' = []).
Proof.
  intros H. split.
  - assert (abstract
            = if truthy (Simple.run_strategies (Simple.strategies page))
              then simple_clean_text
                     (Simple.run_strategies (Simple.strategies page))
              else []) as ->.
    { unfold Simple.extract_abstract in H.
      destruct (delay <? 0)%Z; [done|]. by injection H as <-. }
    destruct (run_strategies_result (Simple.strategies page)) as [->|[Hin Hlen]];
      [by left|].
    destruct (truthy _); [|by left]. right. by eexists.
  - intros abstract'. unfold Simple.extract_abstract.
    destruct (delay <? 0)%Z; [done|]. by intros [= <-].
Qed.

Lemma tidy_cleaned (prefixes : list str) (text : str) :
  tidy (if truthy text then remove_prefixes prefixes (collapse text) else [])
  = true.
Proof.
  destruct (truthy text); [|done].
  apply tidy_remove_prefixes, tidy_collapse.
Qed.

(** X14: the abstracts of the static and of the browser scraper are
    spaced like those of the API scraper: no whitespace at either end,
    no two whitespace characters in a row, and none but blanks. *)
Theorem other_scrapers_well_spaced :
  (forall (delay : Z) (page : Simple.fetched) (abstract : str),
     Simple.extract_abstract delay page = Returned abstract ->
     well_spaced abstract)
  /\ (forall (delay : Z) (l : Browser.loaded) (abstract : str),
        Browser.extract_abstract delay l = Returned abstract ->
        well_spaced abstract).
Proof.
  split.
  - intros delay page abstract. unfold Simple.extract_abstract.
    destruct (delay <? 0)%Z; [done|]. intros [= <-].
    apply tidy_well_spaced. destruct page as [|page]; [done|].
    apply tidy_cleaned.
  - intros delay l abstract.
    assert (forall (e : exn) (a : str),
              tidy a = true ->
              (if (delay <? 0)%Z then Raised e else Returned a)
              = Returned abstract ->
              well_spaced abstract) as Hgen.
    { intros e a Ha. destruct (delay <? 0)%Z; [done|]. intros [= <-].
      by apply tidy_well_spaced. }
    unfold Browser.extract_abstract. cbv zeta. apply Hgen.
    destruct l as [|p]; [done|]. apply tidy_cleaned.
Qed.

Section Finders.

Import SimplePage.

Lemma collect_closed_form siblings :
  forall next_elements,
    length next_elements <= 5 ->
    collect siblings next_elements
    = take 6 (next_elements ++ omap text_of (until_heading siblings)).
Proof.
  induction siblings as [|e siblings IH]; intros acc Hacc.
  - simpl. rewrite app_nil_r. by rewrite take_ge by lia.
  - cbn [collect until_heading]. destruct (decide (name e ∈ heading_names)).
    { simpl. rewrite app_nil_r. by rewrite take_ge by lia. }
    cbn [omap list_omap]. unfold text_of at 1.
    destruct (bool_decide (name e ∈ text_names)
              && truthy (strip (get_text e))).
    + destruct (5 <? length (acc ++ [strip (get_text e)])) eqn:Hlen.
      * apply Nat.ltb_lt in Hlen. rewrite length_app in Hlen. simpl in Hlen.
        rewrite (cons_middle _ acc (omap _ _)), app_assoc.
        rewrite take_app_length'; [done|]. rewrite length_app. simpl. lia.
      * apply Nat.ltb_ge in Hlen. rewrite IH by done.
        by rewrite <- app_assoc.
    + apply Nat.leb_le in Hacc as Hle.
      assert ((5 <? length acc) = false) as -> by (apply Nat.ltb_ge; lia).
      by apply IH.
Qed.

Lemma first_long_Some texts text :
  first_long texts = Some text ->
  50 < length text /\ strip text = text
  /\ exists content, content ∈ texts /\ text = strip content.
Proof.
  induction texts as [|content texts IH]; [done|]. cbn [first_long]. cbv zeta.
  destruct (50 <? length (strip content)) eqn:Hlen.
  - intros [= <-]. apply Nat.ltb_lt in Hlen.
    split; [done|]. split; [apply strip_idempotent|].
    exists content. split; [by left|done].
  - intros H. destruct (IH H) as (H1 & H2 & content' & Hin & ->).
    split; [done|]. split; [done|]. exists content'. split; [by right|done].
Qed.

Lemma find_in_classes_result patterns c :
  find_in_classes patterns c = []
  \/ (50 < length (find_in_classes patterns c)
      /\ strip (find_in_classes patterns c) = find_in_classes patterns c
      /\ exists pattern content,
           pattern ∈ patterns
           /\ content ∈ with_class c pattern ++ with_class_lower c pattern
           /\ find_in_classes patterns c = strip content).
Proof.
  induction patterns as [|pattern patterns IH]; [by left|].
  cbn [find_in_classes].
  destruct (first_long (with_class c pattern)) as [text|] eqn:H1.
  { right. destruct (first_long_Some _ _ H1) as (? & ? & content & Hin & ->).
    split; [done|]. split; [done|]. exists pattern, content.
    split; [by left|]. split; [|done]. apply elem_of_app. by left. }
  destruct (first_long (with_class_lower c pattern)) as [text|] eqn:H2.
  { right. destruct (first_long_Some _ _ H2) as (? & ? & content & Hin & ->).
    split; [done|]. split; [done|]. exists pattern, content.
    split; [by left|]. split; [|done]. apply elem_of_app. by right. }
  destruct IH as [IH|(I1 & I2 & pattern' & content & Hp & Hc & I3)]; [by left|].
  right. split; [done|]. split; [done|]. exists pattern', content.
  split; [by right|done].
Qed.

End Finders.

(** X15: what [_find_by_text_content] gathers after a heading: the
    stripped texts of the [p], [div] and [span] elements that follow the
    heading among its siblings and have a text, up to the next heading,
    and of those the first six. *)
Theorem collect_takes_six_until_heading (siblings : list SimplePage.element) :
  SimplePage.collect siblings []
  = take 6 (omap SimplePage.text_of (SimplePage.until_heading siblings))
  /\ length (SimplePage.collect siblings []) <= 6
  /\ Forall (fun text => text <> [] /\ strip text = text)
            (SimplePage.collect siblings []).
Proof.
  assert (SimplePage.collect siblings []
          = take 6 (omap SimplePage.text_of (SimplePage.until_heading siblings)))
    as Heq.
  { by rewrite collect_closed_form by (simpl; lia). }
  split; [done|]. rewrite Heq. split.
  - rewrite length_take. lia.
  - apply Forall_take, Forall_forall. intros text Hin.
    apply list_elem_of_omap in Hin as (e & _ & He).
    unfold SimplePage.text_of in He.
    destruct (bool_decide _ && truthy (strip (SimplePage.get_text e))) eqn:Hq;
      [|done].
    injection He as <-. apply andb_prop in Hq as [_ Ht].
    split; [by apply truthy_nonempty|apply strip_idempotent].
Qed.

(** X16: in [_find_by_text_content] a heading comes before every
    container.  When the first heading that has a text after it has a
    text of at most 50 characters, that text is the result of the
    finder, and the loop of [extract_abstract] passes the strategy over,
    though a container of the same search may hold a longer text. *)
Theorem short_heading_text_hides_containers (m : SimplePage.matches)
    (text : str) (later : list Simple.strategy_result) :
  SimplePage.first_heading (SimplePage.headings m) = Some text ->
  length (strip text) <= 50 ->
  SimplePage._find_by_text_content m = text
  /\ Simple.run_strategies
       (Simple.Gives (SimplePage._find_by_text_content m) :: later)
     = Simple.run_strategies later.
Proof.
  intros Hfirst Hlen.
  assert (SimplePage._find_by_text_content m = text) as Heq.
  { unfold SimplePage._find_by_text_content. by rewrite Hfirst. }
  split; [done|]. rewrite Heq. cbn [Simple.run_strategies].
  apply Nat.ltb_ge in Hlen as ->. by rewrite andb_false_r.
Qed.

(** X17: [_find_by_classes] gives no short text: its result is empty, or
    it is the stripped text, over 50 characters long, of an element
    found for one of the class patterns; and the loop of
    [extract_abstract] accepts every result of it that is not empty. *)
Theorem class_finder_gives_long_text (c : SimplePage.class_matches)
    (later : list Simple.strategy_result) :
  (SimplePage._find_by_classes c = []
   \/ (50 < length (SimplePage._find_by_classes c)
       /\ exists pattern content,
            pattern ∈ SimplePage.class_patterns
            /\ content ∈ SimplePage.with_class c pattern
                         ++ SimplePage.with_class_lower c pattern
            /\ SimplePage._find_by_classes c = strip content))
  /\ (SimplePage._find_by_classes c <> [] ->
      Simple.run_strategies
        (Simple.Gives (SimplePage._find_by_classes c) :: later)
      = SimplePage._find_by_classes c).
Proof.
  unfold SimplePage._find_by_classes.
  destruct (find_in_classes_result SimplePage.class_patterns c)
    as [Hnil|(Hlen & Hstrip & Hfrom)].
  - split; [by left|]. by intros [].
  - split; [right; by split|]. intros Hne. cbn [Simple.run_strategies].
    rewrite Hstrip. apply Nat.ltb_lt in Hlen as ->.
    apply truthy_nonempty in Hne as ->. done.
Qed.

Section BrowserLoops.

Lemma read_elements_prefix elements abstract_text :
  abstract_text `prefix_of` (Browser.read_elements elements abstract_text).1.
Proof.
  revert abstract_text.
  induction elements as [|[content|] elements IH]; intros abstract_text;
    [done| |done].
  cbn [Browser.read_elements]. cbv zeta.
  destruct (truthy (strip content) && (50 <? length (strip content))); [|apply IH].
  etrans; [|apply IH]. by apply prefix_app_r.
Qed.

Lemma scan_selectors_prefix p selectors :
  forall abstract_text,
    abstract_text `prefix_of` Browser.scan_selectors p selectors abstract_text.
Proof.
  induction selectors as [|selector selectors IH]; intros abstract_text; [done|].
  cbn [Browser.scan_selectors].
  destruct (Browser.find_elements p selector) as [|[|e es]]; try apply IH.
  pose proof (read_elements_prefix (e :: es) abstract_text) as Hread.
  destruct (Browser.read_elements (e :: es) abstract_text) as [a [|]];
    simpl in Hread.
  - destruct (Browser.show_more_button p); try apply IH;
      (destruct (truthy (strip a)); [done|]; etrans; [exact Hread|apply IH]).
  - destruct (Browser.show_more_button p); try apply IH;
      (etrans; [exact Hread|apply IH]).
Qed.

Lemma first_pattern_blank pre found :
  Forall (fun o : option str =>
            match o with Some text => strip text = [] | None => True end) pre ->
  Browser.first_pattern (pre ++ found) [] = Browser.first_pattern found [].
Proof.
  induction 1 as [|[text|] pre Ho _ IH]; [done|..].
  - rewrite <- app_comm_cons. cbn [Browser.first_pattern]. cbv zeta.
    by rewrite Ho.
  - done.
Qed.

End BrowserLoops.

(** X18: the browser scraper drops no text it has gathered.  The text
    after the loop over the selectors starts with the text before it;
    and when reading the elements of a selector raises at the second
    element, after the first was taken, the loop goes on to the next
    selector with the text of the first element kept, so that the text
    of a later selector is put behind it. *)
Theorem browser_keeps_gathered_text (p : Browser.page) :
  (forall (selectors : list str) (abstract_text : str),
     abstract_text `prefix_of` Browser.scan_selectors p selectors abstract_text)
  /\ (forall (selector : str) (selectors : list str) (abstract_text content : str)
             (others : list (option str)),
        Browser.find_elements p selector
        = Browser.Elements (Some content :: None :: others) ->
        Browser.show_more_button p <> Browser.ButtonError ->
        50 < length (strip content) ->
        Browser.scan_selectors p (selector :: selectors) abstract_text
        = Browser.scan_selectors p selectors
            (abstract_text ++ strip content ++ py " ")).
Proof.
  split; [intros; apply scan_selectors_prefix|].
  intros selector selectors abstract_text content others Hfind Hbutton Hlen.
  cbn [Browser.scan_selectors]. rewrite Hfind.
  cbn [Browser.read_elements]. cbv zeta.
  rewrite truthy_length by lia. apply Nat.ltb_lt in Hlen as ->. simpl.
  by destruct (Browser.show_more_button p).
Qed.

(** X19: the fallback of the browser scraper has no length threshold.
    When the selectors gather nothing, the abstract is the text, stripped
    and cleaned, of the first [soup.find] pattern that found an element
    with a text that is not blank, however short the text is. *)
Theorem browser_fallback_takes_any_text (p : Browser.page) (delay : Z)
    (pre post : list (option str)) (text : str) :
  Browser.scan_selectors p Browser.abstract_selectors [] = [] ->
  Browser.patterns p = pre ++ Some text :: post ->
  Forall (fun o : option str =>
            match o with Some t => strip t = [] | None => True end) pre ->
  strip text <> [] ->
  (0 <= delay)%Z ->
  Browser.extract_abstract delay (Browser.Loaded p)
  = Returned (remove_prefixes Browser.prefixes_to_remove
                (collapse (strip text))).
Proof.
  intros Hscan Hpatterns Hpre Htext Hdelay.
  unfold Browser.extract_abstract. apply Z.ltb_ge in Hdelay as ->.
  rewrite Hscan, Hpatterns. cbv zeta.
  change (truthy (strip [])) with false. cbv iota.
  rewrite first_pattern_blank by done.
  cbn [Browser.first_pattern]. cbv zeta.
  apply truthy_nonempty in Htext as Ht. by rewrite !Ht.
Qed.

(** * Beyond the claims: the helper scripts *)

Section RemainingProjects.

Context {Row Id : Type} `{Countable Id}.
Variable project_id : Row -> Id.

Implicit Types (main_df processed_df : list Row).

Lemma elem_of_remaining_ids main_df processed_df r :
  r ∈ main_df ->
  project_id r ∈ Remaining.remaining_project_ids project_id main_df processed_df
  <-> project_id r ∉ project_id <$> processed_df.
Proof.
  intros Hr. unfold Remaining.remaining_project_ids, Remaining.project_ids.
  rewrite elem_of_difference, !elem_of_list_to_set. split; [by intros [_ ?]|].
  intros Hn. split; [by apply list_elem_of_fmap_2|done].
Qed.

Lemma filter_ext_in {A} (P Q : A -> Prop) `{!forall x, Decision (P x)}
    `{!forall x, Decision (Q x)} (l : list A) :
  (forall x, x ∈ l -> P x <-> Q x) -> filter P l = filter Q l.
Proof.
  induction l as [|x l IH]; intros Hext; [done|].
  rewrite !filter_cons.
  assert (P x <-> Q x) as Hx by (apply Hext; by left).
  rewrite IH by (intros y Hy; apply Hext; by right).
  destruct (decide (P x)), (decide (Q x)); tauto.
Qed.

Lemma size_list_to_set_le (l : list Id) :
  size (list_to_set (C := gset Id) l) <= length l.
Proof.
  induction l as [|x l IH]; [done|].
  rewrite list_to_set_cons, size_union_alt, size_singleton. simpl.
  assert (size (list_to_set (C := gset Id) l ∖ {[x]})
          <= size (list_to_set (C := gset Id) l)).
  { apply subseteq_size. by intros y [? _]%elem_of_difference. }
  lia.
Qed.

Lemma remaining_df_filter main_df processed_df :
  Remaining.remaining_df project_id main_df processed_df
  = filter (fun r => project_id r ∉ project_id <$> processed_df) main_df.
Proof.
  unfold Remaining.remaining_df. apply filter_ext_in.
  intros r Hr. by apply elem_of_remaining_ids.
Qed.

Lemma remaining_ids_of_rows main_df processed_df :
  Remaining.remaining_project_ids project_id main_df processed_df
  = list_to_set (project_id <$> Remaining.remaining_df project_id main_df
                                  processed_df).
Proof.
  apply set_eq. intros x. rewrite elem_of_list_to_set, list_elem_of_fmap.
  unfold Remaining.remaining_df. split.
  - intros Hx. pose proof Hx as Hx'.
    unfold Remaining.remaining_project_ids, Remaining.project_ids in Hx'.
    apply elem_of_difference in Hx' as [Hin _].
    apply elem_of_list_to_set, list_elem_of_fmap in Hin as (r & -> & Hr).
    exists r. split; [done|]. by apply list_elem_of_filter.
  - intros (r & -> & Hr). by apply list_elem_of_filter in Hr as [? _].
Qed.

End RemainingProjects.

(** X20: the table that [identify_remaining_projects] saves holds the
    rows of the main table whose project id no row of the processed
    table has, in the order of the main table; a project id that comes
    more than once in the main table comes as often in the saved one. *)
Theorem remaining_rows_are_the_unprocessed {Row Id : Type} `{Countable Id}
    (project_id : Row -> Id) (main_df processed_df : list Row) :
  Remaining.remaining_df project_id main_df processed_df
  = filter (fun r => project_id r ∉ project_id <$> processed_df) main_df
  /\ forall r,
       r ∈ Remaining.remaining_df project_id main_df processed_df
       <-> r ∈ main_df
           /\ forall q, q ∈ processed_df -> project_id q <> project_id r.
Proof.
  split; [apply remaining_df_filter|].
  intros r. rewrite remaining_df_filter, list_elem_of_filter, list_elem_of_fmap.
  split.
  - intros [Hn Hr]. split; [done|]. intros q Hq Heq. apply Hn. by exists q.
  - intros [Hr Hn]. split; [|done]. intros (q & Heq & Hq). by apply (Hn q).
Qed.

(** X21: the two counts that [identify_remaining_projects] prints.  The
    number of remaining project ids is at most the number of rows saved,
    and the two are equal when no project id comes twice in the main
    table. *)
Theorem remaining_counts {Row Id : Type} `{Countable Id}
    (project_id : Row -> Id) (main_df processed_df : list Row) :
  size (Remaining.remaining_project_ids project_id main_df processed_df)
  <= length (Remaining.remaining_df project_id main_df processed_df)
  /\ (NoDup (project_id <$> main_df) ->
      size (Remaining.remaining_project_ids project_id main_df processed_df)
      = length (Remaining.remaining_df project_id main_df processed_df)).
Proof.
  rewrite remaining_ids_of_rows. split.
  - etrans; [apply size_list_to_set_le|]. by rewrite length_fmap.
  - intros Hnd. rewrite size_list_to_set; [by rewrite length_fmap|].
    eapply sublist_NoDup; [exact Hnd|].
    apply fmap_sublist. unfold Remaining.remaining_df. apply sublist_filter.
Qed.

Section PriorityTable.

Context {A K : Type} `{EqDecision K}.
Variable key : A -> K.

Lemma drop_duplicates_spec (l : list A) :
  forall seen,
    NoDup (key <$> Priority.drop_duplicates key seen l)
    /\ (forall x, x ∈ Priority.drop_duplicates key seen l ->
                  x ∈ l /\ key x ∉ seen)
    /\ (forall x, x ∈ l -> key x ∉ seen ->
                  key x ∈ key <$> Priority.drop_duplicates key seen l)
    /\ (forall pre x post,
          l = pre ++ x :: post -> key x ∉ seen -> key x ∉ key <$> pre ->
          x ∈ Priority.drop_duplicates key seen l).
Proof.
  induction l as [|a l IH]; intros seen.
  - simpl. split; [constructor|]. split; [by intros x ?%elem_of_nil|].
    split; [by intros x ?%elem_of_nil|]. by intros [|] ???.
  - cbn [Priority.drop_duplicates]. destruct (decide (key a ∈ seen)) as [Hin|Hn].
    + destruct (IH seen) as (I1 & I2 & I3 & I4).
      split; [done|]. split; [|split].
      * intros x Hx. destruct (I2 x Hx). split; [by right|done].
      * intros x [->|Hx]%elem_of_cons Hseen; [done|by apply I3].
      * intros [|b pre] x post Heq Hseen Hpre.
        -- injection Heq as -> ->. done.
        -- injection Heq as -> ->. eapply I4; [done..|].
           rewrite fmap_cons, not_elem_of_cons in Hpre. tauto.
    + destruct (IH (key a :: seen)) as (I1 & I2 & I3 & I4).
      split; [|split; [|split]].
      * rewrite fmap_cons. apply NoDup_cons. split; [|done].
        intros (x & Heq & Hx)%list_elem_of_fmap.
        destruct (I2 x Hx) as [_ Hnot]. apply Hnot. rewrite <- Heq. by left.
      * intros x [->|Hx]%elem_of_cons; [split; [by left|done]|].
        destruct (I2 x Hx) as [? Hnot]. split; [by right|].
        rewrite not_elem_of_cons in Hnot. tauto.
      * intros x Hx Hseen. rewrite fmap_cons.
        destruct (decide (key x = key a)) as [->|Hne]; [by left|].
        right. apply elem_of_cons in Hx as [->|Hx]; [done|].
        apply I3; [done|]. rewrite not_elem_of_cons. tauto.
      * intros [|b pre] x post Heq Hseen Hpre.
        -- injection Heq as -> ->. by left.
        -- injection Heq as -> ->. right.
           rewrite fmap_cons, not_elem_of_cons in Hpre. destruct Hpre.
           eapply I4; [done| |done]. rewrite not_elem_of_cons. tauto.
Qed.

Lemma NoDup_fmap_same (l : list A) x y :
  NoDup (key <$> l) -> x ∈ l -> y ∈ l -> key x = key y -> x = y.
Proof.
  induction l as [|a l IH]; intros Hnd Hx Hy Heq; [by apply elem_of_nil in Hx|].
  rewrite fmap_cons in Hnd. apply NoDup_cons in Hnd as [Ha Hnd].
  apply elem_of_cons in Hx as [->|Hx]; apply elem_of_cons in Hy as [->|Hy];
    try done.
  - destruct Ha. rewrite Heq. by apply list_elem_of_fmap_2.
  - destruct Ha. rewrite <- Heq. by apply list_elem_of_fmap_2.
  - by apply IH.
Qed.

End PriorityTable.

(** X22: the priority table of [filter_projects] has one row for every
    project id that a row of the recent-and-active table or of the
    high-value table has, and no two rows with one project id; every one
    of its rows is a row of one of the two tables. *)
Theorem priority_has_one_row_per_project {V : Type} `{EqDecision V} (nan : V)
    (is_recent_active : gmap str V -> bool) (to_numeric : option V -> V)
    (at_least_10m : V -> bool) (df : list (gmap str V)) :
  let priority :=
    Priority.priority_projects nan is_recent_active to_numeric at_least_10m df in
  let both :=
    (Priority.pad nan <$> Priority.recent_active is_recent_active df)
    ++ Priority.high_value to_numeric at_least_10m df in
  NoDup ((fun r : gmap str V => r !! Priority.id_column) <$> priority)
  /\ (forall r, r ∈ priority -> r ∈ both)
  /\ (forall r, r ∈ both ->
        exists r', r' ∈ priority
                   /\ r' !! Priority.id_column = r !! Priority.id_column).
Proof.
  intros priority both. subst priority. unfold Priority.priority_projects.
  fold both.
  destruct (drop_duplicates_spec
              (fun r : gmap str V => r !! Priority.id_column) both [])
    as (H1 & H2 & H3 & _).
  split; [done|]. split.
  - intros r Hr. by apply H2.
  - intros r Hr.
    pose proof (H3 r Hr (not_elem_of_nil _)) as Hex.
    apply list_elem_of_fmap in Hex as (r' & Heq & Hr'). by exists r'.
Qed.

(** X23: in the priority table the row of the recent-and-active table
    comes first.  For a project that is recent and active, the first row
    with its id is saved as it is in that table, which was taken before
    the column [Total_IBRD_IDA_clean] was added: when the input has no
    such column the saved row holds the missing value there, also for a
    project whose total passes the high-value test, and no other row
    with that id is saved. *)
Theorem priority_keeps_recent_active_row {V : Type} `{EqDecision V} (nan : V)
    (is_recent_active : gmap str V -> bool) (to_numeric : option V -> V)
    (at_least_10m : V -> bool) (df : list (gmap str V))
    (pre post : list (gmap str V)) (r : gmap str V) :
  Priority.recent_active is_recent_active df = pre ++ r :: post ->
  r !! Priority.id_column
    ∉ (fun q : gmap str V => q !! Priority.id_column) <$> pre ->
  r !! Priority.clean_column = None ->
  let priority :=
    Priority.priority_projects nan is_recent_active to_numeric at_least_10m df in
  <[Priority.clean_column := nan]> r ∈ priority
  /\ forall r', r' ∈ priority ->
       r' !! Priority.id_column = r !! Priority.id_column ->
       r' = <[Priority.clean_column := nan]> r.
Proof.
  intros Hrecent Hfirst Hnone priority. subst priority.
  unfold Priority.priority_projects.
  set (both := (Priority.pad nan <$> Priority.recent_active is_recent_active df)
               ++ Priority.high_value to_numeric at_least_10m df).
  destruct (drop_duplicates_spec
              (fun r : gmap str V => r !! Priority.id_column) both [])
    as (H1 & _ & _ & H4).
  assert (forall q : gmap str V,
            Priority.pad nan q !! Priority.id_column = q !! Priority.id_column)
    as Hpad_id.
  { intros q. unfold Priority.pad.
    destruct (q !! Priority.clean_column); [done|].
    by rewrite lookup_insert_ne. }
  assert (Priority.pad nan r = <[Priority.clean_column := nan]> r) as Hpad.
  { unfold Priority.pad. by rewrite Hnone. }
  assert (<[Priority.clean_column := nan]> r
          ∈ Priority.drop_duplicates
              (fun r : gmap str V => r !! Priority.id_column) [] both) as Hin.
  { rewrite <- Hpad.
    apply (H4 (Priority.pad nan <$> pre) (Priority.pad nan r)
              ((Priority.pad nan <$> post)
               ++ Priority.high_value to_numeric at_least_10m df)).
    - unfold both. rewrite Hrecent, fmap_app, fmap_cons, <- app_assoc. done.
    - apply not_elem_of_nil.
    - rewrite Hpad_id, <- list_fmap_compose.
      intros (q & Heq & Hq)%list_elem_of_fmap. apply Hfirst.
      apply list_elem_of_fmap. exists q. split; [|done].
      simpl in Heq. by rewrite Hpad_id in Heq. }
  split; [done|].
  intros r' Hr' Heq.
  eapply (NoDup_fmap_same (fun r : gmap str V => r !! Priority.id_column));
    [exact H1|done|done|].
  rewrite Heq, <- Hpad. by rewrite Hpad_id.
Qed.

(** * The properties beyond the claims, at concrete inputs *)

Lemma unlisted_fields_are_ignored_witness :
  Api.scan_fields Api.abstract_fields Examples.two_field_project []
  = Api.scan_fields Api.abstract_fields MoreExamples.with_country [].
Proof.
  apply (unlisted_fields_are_ignored Examples.two_field_project
           MoreExamples.with_country).
  intros field Hin.
  repeat (apply elem_of_cons in Hin as [->|Hin]; [vm_compute; reflexivity|]).
  by apply elem_of_nil in Hin.
Defined.

Lemma first_accepted_field_wins_witness :
  Api.scan_fields Api.abstract_fields MoreExamples.short_then_long []
  = strip (Api.py_str (Api.PStr Examples.fallback_text)).
Proof.
  apply (first_accepted_field_wins MoreExamples.short_then_long
           [py "project_abstract"; py "abstract"]
           [py "summary"; py "project_description"; py "project_summary"]
           (py "description") (Api.PStr Examples.fallback_text)).
  - reflexivity.
  - repeat constructor.
  - vm_compute. reflexivity.
  - vm_compute. reflexivity.
Defined.

Lemma last_short_field_is_returned_witness :
  Api.scan_fields Api.abstract_fields Examples.short_project []
  = strip (Api.py_str (Api.PStr (py "Short text"))).
Proof.
  apply (last_short_field_is_returned Examples.short_project
           [py "project_abstract"]
           [py "description"; py "summary"; py "project_description";
            py "project_summary"]
           (py "abstract") (Api.PStr (py "Short text"))).
  - reflexivity.
  - repeat constructor.
  - vm_compute. reflexivity.
  - reflexivity.
  - vm_compute. lia.
  - repeat constructor.
Defined.

Lemma no_listed_field_gives_empty_witness :
  (Api.extract_abstract MoreExamples.only_country_world 0 0
     Examples.url_P123456).2
  = Returned [].
Proof.
  apply (no_listed_field_gives_empty MoreExamples.only_country
           MoreExamples.only_country_world 0 0 Examples.url_P123456
           (py "P123456")).
  - repeat constructor.
  - vm_compute. reflexivity.
  - vm_compute. reflexivity.
  - lia.
Defined.

Lemma process_csv_effects_witness :
  exists tr rep,
    Api.process_csv Examples.all_answered 0 Examples.two_rows
      (py "Project URL") (py "Abstract") = (tr, Returned rep)
    /\ length (filter (fun e => is_get e = true) tr)
       <= length (filter (fun e => is_sleep e = true) tr)
    /\ length (filter (fun e => is_sleep e = true) tr) <= 2.
Proof.
  destruct (Api.process_csv Examples.all_answered 0 Examples.two_rows
              (py "Project URL") (py "Abstract")) as [tr [rep|e]] eqn:Hrun.
  - exists tr, rep. split; [reflexivity|].
    destruct (process_csv_effects _ _ _ _ _ _ _ Hrun) as (_ & Hget & _ & Hle).
    split; [exact Hget|exact Hle].
  - vm_compute in Hrun. discriminate Hrun.
Defined.

Lemma non_text_locator_aborts_witness :
  exists tr,
    Api.process_csv Examples.all_answered 0 MoreExamples.with_number_locator
      (py "Project URL") (py "Abstract") = (tr, Raised AttributeError)
    /\ Api.ToCsv ∉ tr.
Proof.
  destruct (non_text_locator_aborts Examples.all_answered 0
              MoreExamples.with_number_locator (py "Project URL")
              (py "Abstract") [Examples.first_row] [] MoreExamples.number_row)
    as (tr & Hrun & _ & Hsave).
  - vm_compute. by left.
  - discriminate.
  - reflexivity.
  - repeat constructor. eexists. split; [vm_compute; reflexivity|discriminate].
  - vm_compute. reflexivity.
  - by exists tr.
Defined.

Lemma same_column_skips_every_row_witness :
  Api.process_csv Examples.all_answered 0 Examples.two_rows
    (py "Project URL") (py "Project URL")
  = ([Api.ToCsv],
     Returned {| Api.saved := Api.set_column (py "Project URL") Examples.two_rows;
                 Api.successful_extractions := 0;
                 Api.total_urls := 2 |}).
Proof.
  apply (same_column_skips_every_row Examples.all_answered 0 Examples.two_rows
           (py "Project URL")).
  vm_compute. by left.
Defined.

Lemma negative_delay_empties_every_result_witness :
  exists tr rep,
    Api.process_csv Examples.all_answered (-1) Examples.two_rows
      (py "Project URL") (py "Abstract") = (tr, Returned rep)
    /\ Api.successful_extractions rep = 0.
Proof.
  destruct (Api.process_csv Examples.all_answered (-1) Examples.two_rows
              (py "Project URL") (py "Abstract")) as [tr [rep|e]] eqn:Hrun.
  - exists tr, rep. split; [reflexivity|].
    assert (-1 < 0)%Z as Hneg by lia.
    apply (negative_delay_empties_every_result _ _ _ _ _ _ _ Hneg Hrun).
  - vm_compute in Hrun. discriminate Hrun.
Defined.

Lemma saved_frame_keeps_the_table_witness :
  exists tr rep,
    Api.process_csv Examples.all_answered 0 Examples.two_rows
      (py "Project URL") (py "Abstract") = (tr, Returned rep)
    /\ Api.columns (Api.saved rep)
       = [py "Project URL"; py "Name"; py "Abstract"]
    /\ length (Api.rows (Api.saved rep)) = 2.
Proof.
  destruct (Api.process_csv Examples.all_answered 0 Examples.two_rows
              (py "Project URL") (py "Abstract")) as [tr [rep|e]] eqn:Hrun.
  - exists tr, rep. split; [reflexivity|].
    destruct (saved_frame_keeps_the_table _ _ _ _ _ _ _ Hrun)
      as (Hcolumns & Hrows & _).
    split; [exact Hcolumns|exact Hrows].
  - vm_compute in Hrun. discriminate Hrun.
Defined.

Lemma later_rows_leave_earlier_results_witness :
  exists tr rep tr' rep',
    Api.process_csv Examples.all_answered 0 Examples.two_rows
      (py "Project URL") (py "Abstract") = (tr, Returned rep)
    /\ Api.process_csv Examples.all_answered 0 MoreExamples.two_rows_then_more
         (py "Project URL") (py "Abstract") = (tr', Returned rep')
    /\ take 2 (Api.rows (Api.saved rep')) = take 2 (Api.rows (Api.saved rep)).
Proof.
  destruct (Api.process_csv Examples.all_answered 0 Examples.two_rows
              (py "Project URL") (py "Abstract")) as [tr [rep|e]] eqn:Hrun;
    [|vm_compute in Hrun; discriminate Hrun].
  destruct (Api.process_csv Examples.all_answered 0
              MoreExamples.two_rows_then_more
              (py "Project URL") (py "Abstract")) as [tr' [rep'|e]] eqn:Hrun';
    [|vm_compute in Hrun'; discriminate Hrun'].
  exists tr, rep, tr', rep'. split; [reflexivity|]. split; [reflexivity|].
  apply (later_rows_leave_earlier_results Examples.all_answered 0
           Examples.two_rows MoreExamples.two_rows_then_more
           (py "Project URL") (py "Abstract") 2 tr tr' rep rep').
  - reflexivity.
  - reflexivity.
  - exact Hrun.
  - exact Hrun'.
Defined.

Lemma simple_batch_containment_witness :
  exists rep,
    SimpleRun.process_csv MoreExamples.first_request_fails 0 Examples.two_rows
      (py "Project URL") (py "Abstract") = Returned rep
    /\ Api.result_at (py "Abstract") (Api.saved rep) 0 = Some (Api.Str [])
    /\ exists rep',
         SimpleRun.process_csv MoreExamples.all_parsed 0 Examples.two_rows
           (py "Project URL") (py "Abstract") = Returned rep'
         /\ Api.result_at (py "Abstract") (Api.saved rep') 1
            = Api.result_at (py "Abstract") (Api.saved rep) 1.
Proof.
  destruct (simple_batch_containment MoreExamples.first_request_fails 0
              Examples.two_rows (py "Project URL") (py "Abstract") 0
              Examples.first_row Examples.url_P100001)
    as (rep & Hrun & _ & Hk & Hothers).
  - repeat constructor; eexists; vm_compute; reflexivity.
  - repeat constructor; vm_compute; discriminate.
  - vm_compute. by left.
  - reflexivity.
  - vm_compute. reflexivity.
  - reflexivity.
  - exists rep. split; [done|]. split; [done|].
    destruct (Hothers MoreExamples.all_parsed) as (rep' & Hrun' & Hsame).
    + intros [|j] url Hj; [done|reflexivity].
    + exists rep'. split; [done|]. by apply Hsame.
Defined.

Lemma browser_batch_containment_witness :
  exists rep,
    BrowserRun.process_csv MoreExamples.first_load_fails 0 Examples.two_rows
      (py "Project URL") (py "Abstract") = Returned rep
    /\ Api.result_at (py "Abstract") (Api.saved rep) 0 = Some (Api.Str [])
    /\ exists rep',
         BrowserRun.process_csv MoreExamples.all_loaded 0 Examples.two_rows
           (py "Project URL") (py "Abstract") = Returned rep'
         /\ Api.result_at (py "Abstract") (Api.saved rep') 1
            = Api.result_at (py "Abstract") (Api.saved rep) 1.
Proof.
  destruct (browser_batch_containment MoreExamples.first_load_fails 0
              Examples.two_rows (py "Project URL") (py "Abstract") 0
              Examples.first_row Examples.url_P100001)
    as (rep & Hrun & _ & Hk & Hothers).
  - repeat constructor; eexists; vm_compute; reflexivity.
  - repeat constructor; vm_compute; discriminate.
  - vm_compute. by left.
  - reflexivity.
  - vm_compute. reflexivity.
  - reflexivity.
  - exists rep. split; [done|]. split; [done|].
    destruct (Hothers MoreExamples.all_loaded) as (rep' & Hrun' & Hsame).
    + intros [|j] url Hj; [done|reflexivity].
    + exists rep'. split; [done|]. by apply Hsame.
Defined.

Lemma simple_accepts_no_short_text_witness :
  simple_clean_text Examples.first_paragraph = []
  \/ exists result,
       Simple.Gives result ∈ Simple.strategies Examples.third_strategy_page
       /\ 50 < length (strip result)
       /\ simple_clean_text Examples.first_paragraph = simple_clean_text result.
Proof.
  apply (simple_accepts_no_short_text 0 Examples.third_strategy_page
           (simple_clean_text Examples.first_paragraph)).
  vm_compute. reflexivity.
Defined.

Lemma other_scrapers_well_spaced_witness :
  well_spaced (simple_clean_text Examples.first_paragraph).
Proof.
  apply (proj1 other_scrapers_well_spaced 0%Z
           (Simple.Parsed Examples.third_strategy_page)).
  vm_compute. reflexivity.
Defined.

Lemma short_heading_text_hides_containers_witness :
  SimplePage._find_by_text_content MoreExamples.short_after_heading
  = py "Short text"
  /\ Simple.run_strategies
       [Simple.Gives
          (SimplePage._find_by_text_content MoreExamples.short_after_heading);
        Simple.Gives Examples.second_paragraph]
     = Simple.run_strategies [Simple.Gives Examples.second_paragraph].
Proof.
  apply (short_heading_text_hides_containers MoreExamples.short_after_heading
           (py "Short text") [Simple.Gives Examples.second_paragraph]).
  - vm_compute. reflexivity.
  - vm_compute. lia.
Defined.

Lemma class_finder_gives_long_text_witness :
  Simple.run_strategies
    [Simple.Gives (SimplePage._find_by_classes MoreExamples.summary_class)]
  = SimplePage._find_by_classes MoreExamples.summary_class.
Proof.
  apply (proj2 (class_finder_gives_long_text MoreExamples.summary_class [])).
  vm_compute. discriminate.
Defined.

Lemma browser_keeps_gathered_text_witness :
  Browser.scan_selectors MoreExamples.page_with_stale
    Browser.abstract_selectors []
  = Browser.scan_selectors MoreExamples.page_with_stale
      (tail Browser.abstract_selectors)
      (strip Examples.first_paragraph ++ py " ").
Proof.
  apply (proj2 (browser_keeps_gathered_text MoreExamples.page_with_stale)
           (py "//h2[contains(text(), 'Abstract')]/following-sibling::*")
           (tail Browser.abstract_selectors) [] Examples.first_paragraph []).
  - vm_compute. reflexivity.
  - discriminate.
  - vm_compute. lia.
Defined.

Lemma browser_fallback_takes_any_text_witness :
  Browser.extract_abstract 0 (Browser.Loaded MoreExamples.page_with_word)
  = Returned (remove_prefixes Browser.prefixes_to_remove
                (collapse (strip (py " Roads ")))).
Proof.
  apply (browser_fallback_takes_any_text MoreExamples.page_with_word 0
           [None; Some (py "  ")] [] (py " Roads ")).
  - vm_compute. reflexivity.
  - reflexivity.
  - repeat constructor.
  - vm_compute. discriminate.
  - lia.
Defined.

Lemma remaining_counts_witness :
  size (Remaining.remaining_project_ids fst MoreExamples.main_table
          MoreExamples.processed_table)
  = length (Remaining.remaining_df fst MoreExamples.main_table
              MoreExamples.processed_table).
Proof.
  apply (proj2 (remaining_counts fst MoreExamples.main_table
                  MoreExamples.processed_table)).
  apply (bool_decide_unpack _). vm_compute. exact I.
Defined.

Lemma priority_keeps_recent_active_row_witness :
  <[Priority.clean_column := None]> MoreExamples.approved_row
  ∈ Priority.priority_projects None MoreExamples.stage_is_approved
      MoreExamples.as_number MoreExamples.is_25m MoreExamples.projects.
Proof.
  apply (priority_keeps_recent_active_row None MoreExamples.stage_is_approved
           MoreExamples.as_number MoreExamples.is_25m MoreExamples.projects
           [] [] MoreExamples.approved_row).
  - apply (bool_decide_unpack _). vm_compute. exact I.
  - apply not_elem_of_nil.
  - apply (bool_decide_unpack _). vm_compute. exact I.
Defined.
